(** * oc-mirror-web-app: the navigation shell of [src/App.js] and the
      container runner script, embedded and verified.

    The development follows the source top-down:
    - [Dom]      the rendered element tree, class tokens and [Element.closest];
    - [SideMenu] [SideMenuItem] and [SideMenuContent] (rendering and handlers);
    - [Shell]    the [App] component: its two state cells, its effects and the
                 document-level click listener, as a transition system;
    - [Runner]   the bash runner, as a small exit-aware state monad. *)

From Stdlib Require Import String Ascii List Bool Arith Lia.
Import ListNotations.
Open Scope string_scope.

Set Warnings "-register-all".

(* ===================================================================== *)
(** ** The rendered tree                                                  *)
(* ===================================================================== *)
Module Dom.

(** A rendered node.  [className] is the DOM property: the empty string
    when the JSX gives no [className].  Attributes whose JSX value is
    [undefined] are not rendered at all. *)
Inductive dom : Type :=
| Elem (tag : string) (className : string)
       (attrs : list (string * string)) (children : list dom)
| Text (data : string).

Definition optAttr (name : string) (v : option string) : list (string * string) :=
  match v with
  | Some s => [(name, s)]
  | None => []
  end.

Definition children_of (d : dom) : list dom :=
  match d with
  | Elem _ _ _ kids => kids
  | Text _ => []
  end.

Definition className_of (d : dom) : string :=
  match d with
  | Elem _ c _ _ => c
  | Text _ => ""
  end.

Fixpoint getAttribute (name : string) (attrs : list (string * string)) : option string :=
  match attrs with
  | [] => None
  | (k, v) :: rest => if String.eqb k name then Some v else getAttribute name rest
  end.

Definition attr_of (name : string) (d : dom) : option string :=
  match d with
  | Elem _ _ attrs _ => getAttribute name attrs
  | Text _ => None
  end.

(** *** Class tokens: [className] split on ASCII white space *)

Definition is_space (c : ascii) : bool :=
  let n := nat_of_ascii c in
  Nat.eqb n 32 || Nat.eqb n 9 || Nat.eqb n 10 || Nat.eqb n 12 || Nat.eqb n 13.

Definition flush (acc : string) : list string :=
  match acc with
  | EmptyString => []
  | _ => [acc]
  end.

Fixpoint tokens (s acc : string) : list string :=
  match s with
  | EmptyString => flush acc
  | String c rest =>
      if is_space c then flush acc ++ tokens rest ""
      else tokens rest (acc ++ String c "")
  end.

Definition classList (className : string) : list string := tokens className "".

Definition hasClass (cls className : string) : bool :=
  existsb (String.eqb cls) (classList className).

(** *** Addressing and ancestor chains

    A node is addressed by the child indices leading to it from the root.
    [chainAt p d above] is the list of [className]s of the element at [p]
    and of its ancestors, innermost first: all that [closest] looks at. *)

Fixpoint chainAt (p : list nat) (d : dom) (above : list string) : option (list string) :=
  match d with
  | Text _ => None
  | Elem _ cls _ kids =>
      match p with
      | [] => Some (cls :: above)
      | i :: p' =>
          match nth_error kids i with
          | Some k => chainAt p' k (cls :: above)
          | None => None
          end
      end
  end.

(** [element.closest('.' + cls)]: the nearest inclusive ancestor carrying
    the class token, given as the remaining chain from that ancestor up;
    [None] is JavaScript's [null]. *)
Fixpoint closest (cls : string) (chain : list string) : option (list string) :=
  match chain with
  | [] => None
  | c :: up => if hasClass cls c then Some chain else closest cls up
  end.


(** [isPrefix q p]: the node at [p] lies in the subtree rooted at [q]. *)
Fixpoint isPrefix (q p : list nat) : bool :=
  match q, p with
  | [], _ => true
  | i :: q', j :: p' => Nat.eqb i j && isPrefix q' p'
  | _ :: _, [] => false
  end.

End Dom.

(* ===================================================================== *)
(** ** The side menu: [SideMenuItem] and [SideMenuContent]                *)
(* ===================================================================== *)
Module SideMenu.
Import Dom.

(** The lazily loaded route components. *)
Inductive View : Type := Dashboard | MirrorConfig | MirrorOperations | History | Settings.

(** One entry of [navigationItems]. *)
Record NavigationItem : Type := mkItem {
  path : string;
  icon : string;
  label : string;
  component : View
}.

(** [useLocation()] of the router; only [pathname] is read. *)
Record Location : Type := mkLocation {
  pathname : string;
  search : string;
  hash : string
}.

(** The props [SideMenuContent] passes to one [SideMenuItem] ([onClick] is
    kept apart, see [handleItemClick]). *)
Record ItemProps : Type := mkProps {
  to : string;
  p_icon : string;
  p_label : string;
  isActive : bool;
  isCollapsed : bool
}.

Definition linkStyle : string :=
  "text-decoration: none; color: inherit; display: flex; align-items: center; gap: 0.7rem; width: 100%".

(** The element [SideMenuItem] returns: a [div] holding the router's
    [Link] (an anchor), which holds the icon and, unless collapsed, the
    label. *)
Definition SideMenuItem (p : ItemProps) : dom :=
  Elem "div"
       ("side-menu-item " ++ (if isActive p then "active" else ""))
       ([("role", "button"); ("tabindex", "0")]
          ++ optAttr "aria-label" (if isCollapsed p then Some (p_label p) else None)
          ++ optAttr "aria-current" (if isActive p then Some "page" else None)
          ++ optAttr "title" (if isCollapsed p then Some (p_label p) else None))
       [Elem "a" "" [("href", to p); ("style", linkStyle)]
             (Elem "span" "side-menu-icon" [("aria-hidden", "true")] [Text (p_icon p)]
                :: (if negb (isCollapsed p)
                    then [Elem "span" "side-menu-label" [] [Text (p_label p)]]
                    else []))].

(** [location.pathname === item.path] *)
Definition itemProps (location : Location) (sidebarCollapsed : bool)
           (item : NavigationItem) : ItemProps :=
  {| to := path item;
     p_icon := icon item;
     p_label := label item;
     isActive := String.eqb (pathname location) (path item);
     isCollapsed := sidebarCollapsed |}.

Definition toggleButton (sidebarCollapsed : bool) : dom :=
  Elem "button" "sidebar-toggle"
       [("aria-label", if sidebarCollapsed then "Expand menu" else "Collapse menu");
        ("aria-expanded", if negb sidebarCollapsed then "true" else "false")]
       [if sidebarCollapsed then Elem "span" "" [] [Text "&#x25B6;"]
        else Elem "span" "" [] [Text "&#x25C0;"]].

(** The [nav] element [SideMenuContent] returns: the toggle first, then
    one [SideMenuItem] per navigation item, in order. *)
Definition SideMenuContent (navigationItems : list NavigationItem)
           (sidebarCollapsed : bool) (location : Location) : dom :=
  Elem "nav"
       ("side-menu" ++ (if sidebarCollapsed then " collapsed" else ""))
       []
       (toggleButton sidebarCollapsed
          :: map (fun item => SideMenuItem (itemProps location sidebarCollapsed item))
                 navigationItems).

(** The rendered items of a panel (everything after the toggle). *)
Definition renderedItems (nav : dom) : list dom := tl (children_of nav).

(** The [aria-expanded] attribute of the panel's toggle control. *)
Definition toggleExpanded (nav : dom) : option string :=
  match children_of nav with
  | t :: _ => attr_of "aria-expanded" t
  | [] => None
  end.

(** What the rendering shows of one item. *)
Definition markedActive (item : dom) : bool :=
  hasClass "active" (className_of item)
  && match attr_of "aria-current" item with
     | Some v => String.eqb v "page"
     | None => false
     end.

Fixpoint containsClass (cls : string) (d : dom) : bool :=
  match d with
  | Text _ => false
  | Elem _ c _ kids => hasClass cls c || existsb (containsClass cls) kids
  end.

Definition labelShown (item : dom) : bool := containsClass "side-menu-label" item.

(** *** Event handling of one item

    A dispatched event carries [key] (for keyboard events) and the
    [defaultPrevented] flag that [preventDefault()] sets.  The handlers run
    over a record holding that flag, the navigations the router's [Link]
    performed itself, and the caller's state [S], on which the [onClick]
    prop acts. *)
Section Handlers.
Context {S : Type}.

Record Dispatch : Type := mkDispatch {
  defaultPrevented : bool;
  linkNavigations : list string;
  user : S
}.

Definition preventDefault (d : Dispatch) : Dispatch :=
  {| defaultPrevented := true;
     linkNavigations := linkNavigations d;
     user := user d |}.

Definition call (onClick : S -> S) (d : Dispatch) : Dispatch :=
  {| defaultPrevented := defaultPrevented d;
     linkNavigations := linkNavigations d;
     user := onClick (user d) |}.

(** [handleKeyDown]: on Enter or Space, [e.preventDefault(); onClick()]. *)
Definition handleKeyDown (onClick : S -> S) (key : string) (d : Dispatch) : Dispatch :=
  if String.eqb key "Enter" || String.eqb key " "
  then call onClick (preventDefault d)
  else d.

(** The [Link]'s [onClick] prop: [(e) => e.preventDefault()]. *)
Definition linkOnClick (d : Dispatch) : Dispatch := preventDefault d.

(** The router's [Link] runs the [onClick] prop it was given and then
    navigates to [to] itself unless the event's default was prevented. *)
Definition Link_handleClick (to_ : string) (d : Dispatch) : Dispatch :=
  let d' := linkOnClick d in
  if defaultPrevented d' then d'
  else {| defaultPrevented := defaultPrevented d';
          linkNavigations := linkNavigations d' ++ [to_];
          user := user d' |}.

(** Where inside the item an event is targeted. *)
Inductive Part : Type := OnDiv | OnLink | OnIcon | OnLabel.

Definition insideAnchor (t : Part) : bool :=
  match t with
  | OnDiv => false
  | _ => true
  end.

(** A click bubbles from its target to the item's [div]: through the
    [Link] when the target lies in it, then the [div]'s [onClick]. *)
Definition dispatchClick (p : ItemProps) (onClick : S -> S) (t : Part)
           (d : Dispatch) : Dispatch :=
  let d1 := if insideAnchor t then Link_handleClick (to p) d else d in
  call onClick d1.

(** A key press bubbles to the [div]; only the [div] listens to it. *)
Definition dispatchKeyDown (p : ItemProps) (onClick : S -> S) (t : Part)
           (key : string) (d : Dispatch) : Dispatch :=
  handleKeyDown onClick key d.

(** The anchor's own navigation happens after the dispatch, when the target
    lies in the anchor and nothing prevented the default. *)
Definition nativeAnchorNavigation (t : Part) (d : Dispatch) : bool :=
  insideAnchor t && negb (defaultPrevented d).

Definition freshDispatch (s : S) : Dispatch :=
  {| defaultPrevented := false; linkNavigations := []; user := s |}.

End Handlers.
Arguments Dispatch S : clear implicits.

(** [handleItemClick]: [window.location.href = path], recorded as the list
    of assignments made so far. *)
Definition handleItemClick (path_ : string) (hrefs : list string) : list string :=
  hrefs ++ [path_].

End SideMenu.

(* ===================================================================== *)
(** ** The [App] component                                                *)
(* ===================================================================== *)
Module Shell.
Import Dom SideMenu.

(** [navigationItems], built once by [useMemo]. *)
Definition navigationItems : list NavigationItem :=
  [ mkItem "/" "📊" "Dashboard" Dashboard;
    mkItem "/config" "⚙️" "Mirror Configuration" MirrorConfig;
    mkItem "/operations" "🔄" "Mirror Operations" MirrorOperations;
    mkItem "/history" "📋" "History" History;
    mkItem "/settings" "🔧" "Settings" Settings ].

(** The two [useState] cells. *)
Record AppState : Type := mkState {
  sidebarCollapsed : bool;
  isMobileMenuOpen : bool
}.

(** *** Rendering *)

Definition LoadingSpinner : dom :=
  Elem "div" "text-center" [("style", "padding: 2rem")]
       [Elem "div" "loading" [] []; Elem "p" "" [] [Text "Loading..."]].

Definition header : dom :=
  Elem "header" "header" []
    [Elem "div" "container" []
       [Elem "div" "header-content" []
          [Elem "div" "header-brand" []
             [Elem "h1" "" [] [Text "🚀 OC Mirror v2 Web Application"];
              Elem "p" "" [] [Text "OpenShift Container Platform Mirroring Operations"]];
           Elem "div" "header-version" []
             [Elem "span" "version-badge" [] [Text "v2.0"]]]]].

(** What [Suspense] and [Routes] put in the content region: nothing when
    no route matches, the fallback while the matched view loads, else the
    view (the views are separate modules; their output is a parameter). *)
Inductive Content : Type :=
| NoMatch
| Loading
| Ready (view : dom).

Definition contentChildren (c : Content) : list dom :=
  match c with
  | NoMatch => []
  | Loading => [LoadingSpinner]
  | Ready v => [v]
  end.

(** The tree [App] returns; [toasts] is what the notification library's
    [ToastContainer] renders. *)
Definition App_render (st : AppState) (location : Location)
           (content : Content) (toasts : dom) : dom :=
  Elem "div" "App" []
    [ header;
      Elem "div" "main-layout" []
        [ SideMenuContent navigationItems (sidebarCollapsed st) location;
          Elem "div" "main-content container" [] (contentChildren content) ];
      toasts ].

(** The props [App] gives the notification library's [ToastContainer];
    a bare JSX attribute is [true]. What the library does with them
    (timers, hovering, focus) is the library's. *)
Record ToastContainerProps : Type := mkToastProps {
  position : string;
  autoClose : nat;            (* milliseconds *)
  hideProgressBar : bool;
  newestOnTop : bool;
  closeOnClick : bool;
  rtl : bool;
  pauseOnFocusLoss : bool;
  draggable : bool;
  pauseOnHover : bool
}.

Definition toastContainerProps : ToastContainerProps :=
  {| position := "top-right";
     autoClose := 5000;
     hideProgressBar := false;
     newestOnTop := false;
     closeOnClick := true;
     rtl := false;
     pauseOnFocusLoss := true;
     draggable := true;
     pauseOnHover := true |}.

(** Where the Navigation Panel (the [nav]) sits in that tree. *)
Definition navPath : list nat := [1; 0].

(** *** The outside-click handler *)

(** [event.target]: an element, given by its ancestor chain (attached or
    not), a node without [closest] (the document), or [null]. *)
Inductive EventTarget : Type :=
| TargetNull
| TargetNonElement
| TargetElement (chain : list string).

(** How a call of the handler ends: it returns, having possibly called
    [setIsMobileMenuOpen v], or it throws a [TypeError]. *)
Inductive Completion : Type :=
| Returned (update : option bool)
| ThrewTypeError.

(** [if (isMobileMenuOpen && !event.target.closest('.side-menu'))
       setIsMobileMenuOpen(false)]
    [&&] does not evaluate its right operand when the left one is false;
    reading [closest] off [null], or calling it on a node that has none,
    throws. *)
Definition handleClickOutside (isMobileMenuOpen_ : bool) (target : EventTarget) : Completion :=
  if isMobileMenuOpen_ then
    match target with
    | TargetElement chain =>
        match closest "side-menu" chain with
        | None => Returned (Some false)
        | Some _ => Returned None
        end
    | TargetNull | TargetNonElement => ThrewTypeError
    end
  else Returned None.

(** *** The component instance and the document *)

(** A [handleClickOutside] closure: each run of the effect makes a new
    function, which closes over the [isMobileMenuOpen] of its render. *)
Record Listener : Type := mkListener {
  closureId : nat;
  capturedOpen : bool
}.

Record Instance : Type := mkInstance {
  state : AppState;
  registered : Listener   (* the closure the effect's cleanup removes *)
}.

Record World : Type := mkWorld {
  listeners : list Listener;   (* the document's 'click' listeners *)
  app : option Instance;       (* the mounted [App], if any *)
  nextId : nat;                (* closures made so far *)
  uncaught : nat               (* errors thrown out of listeners *)
}.

Definition sameClosure (a b : Listener) : bool := Nat.eqb (closureId a) (closureId b).

(** [document.addEventListener('click', l)]: a listener already present is
    not added a second time. *)
Definition addEventListener (l : Listener) (ls : list Listener) : list Listener :=
  if existsb (sameClosure l) ls then ls else ls ++ [l].

(** [document.removeEventListener('click', l)] *)
Fixpoint removeEventListener (l : Listener) (ls : list Listener) : list Listener :=
  match ls with
  | [] => []
  | x :: rest => if sameClosure l x then rest else x :: removeEventListener l rest
  end.

(** The first effect, for a render with [isMobileMenuOpen = v]: make the
    closure and register it. *)
Definition runListenerEffect (st : AppState) (w : World) : World :=
  let l := mkListener (nextId w) (isMobileMenuOpen st) in
  {| listeners := addEventListener l (listeners w);
     app := Some (mkInstance st l);
     nextId := Datatypes.S (nextId w);
     uncaught := uncaught w |}.

(** Its cleanup. *)
Definition cleanupListenerEffect (inst : Instance) (w : World) : World :=
  {| listeners := removeEventListener (registered inst) (listeners w);
     app := app w;
     nextId := nextId w;
     uncaught := uncaught w |}.

(** [setIsMobileMenuOpen]: an equal value changes nothing; a new value
    re-renders, and as the effect depends on [isMobileMenuOpen] its cleanup
    runs and it runs again. On an unmounted component it does nothing. *)
Definition setIsMobileMenuOpen (f : bool -> bool) (w : World) : World :=
  match app w with
  | None => w
  | Some inst =>
      let v := f (isMobileMenuOpen (state inst)) in
      if Bool.eqb v (isMobileMenuOpen (state inst)) then w
      else runListenerEffect (mkState (sidebarCollapsed (state inst)) v)
                             (cleanupListenerEffect inst w)
  end.

(** [setSidebarCollapsed]: re-renders; the effect's dependency is unchanged,
    so the registered listener stays. *)
Definition setSidebarCollapsed (f : bool -> bool) (w : World) : World :=
  match app w with
  | None => w
  | Some inst =>
      {| listeners := listeners w;
         app := Some (mkInstance (mkState (f (sidebarCollapsed (state inst)))
                                          (isMobileMenuOpen (state inst)))
                                 (registered inst));
         nextId := nextId w;
         uncaught := uncaught w |}
  end.

Definition toggleSidebar : World -> World := setSidebarCollapsed negb.
Definition toggleMobileMenu : World -> World := setIsMobileMenuOpen negb.

(** The second effect, run once after mount: [setIsMobileMenuOpen(false)]. *)
Definition closeOnMountEffect : World -> World := setIsMobileMenuOpen (fun _ => false).

(** Mounting: both cells start from [useState(false)], whatever [w] held;
    then the two effects run in order. *)
Definition mount (w : World) : World :=
  closeOnMountEffect (runListenerEffect (mkState false false) w).

(** Unmounting runs the cleanup and drops the instance. *)
Definition unmount (w : World) : World :=
  match app w with
  | None => w
  | Some inst =>
      let w' := cleanupListenerEffect inst w in
      {| listeners := listeners w'; app := None;
         nextId := nextId w'; uncaught := uncaught w' |}
  end.

(** A click reaching the document: every listener registered when the
    dispatch starts is called once, in order; a listener that throws is
    reported and the others still run; state updates made by the listeners
    are applied when the dispatch is over. *)
Fixpoint callListeners (ls : list Listener) (target : EventTarget)
         (queue : list bool) (errors : nat) : list bool * nat :=
  match ls with
  | [] => (queue, errors)
  | l :: rest =>
      match handleClickOutside (capturedOpen l) target with
      | Returned (Some v) => callListeners rest target (queue ++ [v]) errors
      | Returned None => callListeners rest target queue errors
      | ThrewTypeError => callListeners rest target queue (Datatypes.S errors)
      end
  end.

Definition applyUpdates (queue : list bool) (w : World) : World :=
  fold_left (fun w' v => setIsMobileMenuOpen (fun _ => v) w') queue w.

Definition reportErrors (errors : nat) (w : World) : World :=
  {| listeners := listeners w; app := app w; nextId := nextId w;
     uncaught := uncaught w + errors |}.

Definition dispatchDocumentClick (target : EventTarget) (w : World) : World :=
  let '(queue, errors) := callListeners (listeners w) target [] 0 in
  applyUpdates queue (reportErrors errors w).

(** What can happen to the page. *)
Inductive Event : Type :=
| Mount
| Unmount
| ToggleSidebar
| ToggleMobileMenu
| Click (target : EventTarget).

(** The root is rendered once: mounting a mounted [App] is no event. *)
Definition step (w : World) (e : Event) : World :=
  match e with
  | Mount => match app w with None => mount w | Some _ => w end
  | Unmount => unmount w
  | ToggleSidebar => toggleSidebar w
  | ToggleMobileMenu => toggleMobileMenu w
  | Click t => dispatchDocumentClick t w
  end.

Definition run (w : World) (es : list Event) : World := fold_left step es w.

(** The page before [App] is first rendered. *)
Definition initial : World :=
  {| listeners := []; app := None; nextId := 0; uncaught := 0 |}.

(** The state of the mounted instance, if any. *)
Definition appState (w : World) : option AppState := option_map state (app w).



(** The invariant of a running page: while [App] is mounted the document
    holds the one closure of the latest effect run, which captured the
    current [isMobileMenuOpen]; otherwise it holds none. *)
Definition consistent (w : World) : Prop :=
  match app w with
  | None => listeners w = []
  | Some inst =>
      listeners w = [registered inst]
      /\ capturedOpen (registered inst) = isMobileMenuOpen (state inst)
  end.

End Shell.

(* ===================================================================== *)
(** ** The container runner script                                        *)
(* ===================================================================== *)
Module Runner.

(** The machine the script runs on: which programs [command -v] finds, the
    exit status of every external command (it may differ from one call to
    the next, so it also depends on how many commands ran before), and the
    working directory. *)
Record Env : Type := mkEnv {
  command_v : string -> bool;
  exec : list string -> nat -> nat;
  pwd : string
}.

(** The shell's state: the [CONTAINER_ENGINE] variable, the number of
    external commands run so far, and what was printed. *)
Record Sh : Type := mkSh {
  CONTAINER_ENGINE : string;
  clock : nat;
  stdout : list string
}.

(** A piece of script either goes on with a value or has called [exit]. *)
Inductive Res (A : Type) : Type :=
| Go (a : A) (s : Sh)
| Exit (code : nat) (s : Sh).
Arguments Go {A} a s.
Arguments Exit {A} code s.

Definition M (A : Type) : Type := Sh -> Res A.

Definition ret {A} (a : A) : M A := fun s => Go a s.

Definition bind {A B} (m : M A) (k : A -> M B) : M B :=
  fun s => match m s with
           | Go a s' => k a s'
           | Exit c s' => Exit c s'
           end.

Notation "x <- m ;; k" := (bind m (fun x => k))
  (at level 61, m at next level, right associativity).
Notation "m ;; k" := (bind m (fun _ => k))
  (at level 61, right associativity).

Definition exit {A} (code : nat) : M A := fun s => Exit code s.

Definition echo (line : string) : M unit :=
  fun s => Go tt (mkSh (CONTAINER_ENGINE s) (clock s) (stdout s ++ [line])).

Definition setEngine (e : string) : M unit :=
  fun s => Go tt (mkSh e (clock s) (stdout s)).

Definition engine : M string := fun s => Go (CONTAINER_ENGINE s) s.

(** Run an external command and yield its exit status. *)
Definition external (env : Env) (argv : list string) : M nat :=
  fun s => Go (exec env argv (clock s))
              (mkSh (CONTAINER_ENGINE s) (Datatypes.S (clock s)) (stdout s)).

(** A simple command under [set -e]: a non-zero status ends the script
    with that status. *)
Definition must (env : Env) (argv : list string) : M unit :=
  st <- external env argv ;;
  if Nat.eqb st 0 then ret tt else exit st.

Definition RED : string := "\033[0;31m".
Definition GREEN : string := "\033[0;32m".
Definition YELLOW : string := "\033[1;33m".
Definition BLUE : string := "\033[0;34m".
Definition NC : string := "\033[0m".

Definition print_status (m : string) : M unit := echo (BLUE ++ "[INFO]" ++ NC ++ " " ++ m).
Definition print_success (m : string) : M unit := echo (GREEN ++ "[SUCCESS]" ++ NC ++ " " ++ m).
Definition print_warning (m : string) : M unit := echo (YELLOW ++ "[WARNING]" ++ NC ++ " " ++ m).
Definition print_error (m : string) : M unit := echo (RED ++ "[ERROR]" ++ NC ++ " " ++ m).

(** [command -v e &> /dev/null && e info &> /dev/null] *)
Definition found_and_running (env : Env) (e : string) : M bool :=
  if command_v env e
  then st <- external env [e; "info"] ;; ret (Nat.eqb st 0)
  else ret false.

Definition detect_container_runtime (env : Env) : M unit :=
  d <- found_and_running env "docker" ;;
  if d then
    setEngine "docker" ;;
    print_success "Using Docker as container runtime"
  else
    p <- found_and_running env "podman" ;;
    if p then
      setEngine "podman" ;;
      print_success "Using Podman as container runtime"
    else
      print_error "Neither Docker nor Podman is available or running." ;;
      print_error "Please install Docker or Podman and try again." ;;
      exit 1.

Definition check_container_runtime (env : Env) : M unit :=
  detect_container_runtime env ;;
  e <- engine ;;
  st <- external env [e; "info"] ;;
  if negb (Nat.eqb st 0) then
    print_error (e ++ " is not running or you don't have permission to use it.") ;;
    print_error ("Please start " ++ e ++ " and ensure you have proper permissions.") ;;
    exit 1
  else
    print_success (e ++ " is available and running").

Definition create_directories (env : Env) : M unit :=
  print_status "Creating data directories..." ;;
  must env ["mkdir"; "-p"; "data/configs"] ;;
  must env ["mkdir"; "-p"; "data/operations"] ;;
  must env ["mkdir"; "-p"; "data/logs"] ;;
  must env ["mkdir"; "-p"; "data/cache"] ;;
  print_status "Setting proper permissions for container user..." ;;
  must env ["chmod"; "-R"; "755"; "data/"] ;;
  st <- external env ["chown"; "-R"; "1001:1001"; "data/"] ;;
  (if Nat.eqb st 0 then ret tt
   else
     print_warning "Could not change ownership (may need sudo). Trying alternative approach..." ;;
     must env ["chmod"; "-R"; "777"; "data/"]) ;;
  print_success "Data directories created with proper permissions".

Definition build_image (env : Env) : M unit :=
  e <- engine ;;
  print_status ("Building container image with " ++ e ++ "...") ;;
  if String.eqb e "podman" || String.eqb e "docker" then
    st <- external env [e; "build"; "-t"; "oc-mirror-web-app"; "."] ;;
    if Nat.eqb st 0 then
      print_success "Container image built successfully (native arch)"
    else
      print_error "Failed to build container image (native arch)" ;;
      exit 1
  else
    print_error ("Unsupported container engine: " ++ e) ;;
    exit 1.

Definition run_container (env : Env) : M unit :=
  e <- engine ;;
  print_status ("Starting OC Mirror Web Application container with " ++ e ++ "...") ;;
  st <- external env [e; "ps"; "--format"; "table {{.Names}}"; "|"; "grep"; "-q"; "oc-mirror-web-app"] ;;
  (if Nat.eqb st 0 then
     print_warning "Container is already running. Stopping it first..." ;;
     must env [e; "stop"; "oc-mirror-web-app"] ;;
     must env [e; "rm"; "oc-mirror-web-app"]
   else ret tt) ;;
  must env [e; "run"; "-d";
            "--name"; "oc-mirror-web-app";
            "-p"; "3000:3001";
            "-v"; pwd env ++ "/data:/app/data";
            "-v"; pwd env ++ "/pull-secret/pull-secret.json:/app/pull-secret.json:ro";
            "-e"; "NODE_ENV=production";
            "-e"; "PORT=3001";
            "-e"; "STORAGE_DIR=/app/data";
            "--restart"; "unless-stopped";
            "oc-mirror-web-app"] ;;
  print_success "Container started successfully".

Definition banner : M unit :=
  echo "==========================================" ;;
  echo "  OC Mirror v2 Web Application" ;;
  echo "==========================================".

Definition show_status (env : Env) : M unit :=
  e <- engine ;;
  echo "" ;;
  banner ;;
  echo "" ;;
  print_success "Application is running!" ;;
  echo "" ;;
  echo "🌐 Web Interface: http://localhost:3000" ;;
  echo "🔧 API Server: http://localhost:3001" ;;
  echo "" ;;
  echo ("📁 Data Directory: " ++ pwd env ++ "/data") ;;
  echo "📋 Container Name: oc-mirror-web-app" ;;
  echo ("🔧 Container Engine: " ++ e) ;;
  echo "" ;;
  echo "📊 Container Status:" ;;
  must env [e; "ps"; "--filter"; "name=oc-mirror-web-app"; "--format";
            "table {{.Names}}\t{{.Status}}\t{{.Ports}}"] ;;
  echo "" ;;
  echo "📝 Useful Commands:" ;;
  echo ("  View logs:     " ++ e ++ " logs -f oc-mirror-web-app") ;;
  echo ("  Stop app:      " ++ e ++ " stop oc-mirror-web-app") ;;
  echo ("  Remove app:    " ++ e ++ " rm oc-mirror-web-app") ;;
  echo ("  Shell access:  " ++ e ++ " exec -it oc-mirror-web-app /bin/sh") ;;
  echo "".

Definition fix_permissions (env : Env) : M unit :=
  print_status "Checking and fixing data directory permissions..." ;;
  isdir <- external env ["["; "-d"; "data"; "]"] ;;
  if Nat.eqb isdir 0 then
    st <- external env ["chown"; "-R"; "1001:1001"; "data/"] ;;
    if Nat.eqb st 0 then
      must env ["chmod"; "-R"; "755"; "data/"] ;;
      print_success "Permissions fixed successfully"
    else
      print_warning "Could not change ownership. Making directories world-writable..." ;;
      must env ["chmod"; "-R"; "777"; "data/"] ;;
      print_success "Made directories world-writable"
  else ret tt.

Definition main (env : Env) : M unit :=
  echo "==========================================" ;;
  echo "  OC Mirror v2 Web Application" ;;
  echo "  Containerized Runner" ;;
  echo "==========================================" ;;
  echo "" ;;
  check_container_runtime env ;;
  create_directories env ;;
  fix_permissions env ;;
  build_image env ;;
  run_container env ;;
  show_status env.

Definition usage (argv0 : string) : M unit :=
  echo ("Usage: " ++ argv0 ++ " [OPTIONS]") ;;
  echo "" ;;
  echo "Options:" ;;
  echo "  --help, -h     Show this help message" ;;
  echo "  --build-only   Only build the container image" ;;
  echo "  --run-only     Only run the container (assumes image exists)" ;;
  echo "  --stop         Stop and remove the container" ;;
  echo "  --logs         Show container logs" ;;
  echo "  --engine       Show detected container engine" ;;
  echo "" ;;
  echo "Examples:" ;;
  echo ("  " ++ argv0 ++ "              # Build and run the application") ;;
  echo ("  " ++ argv0 ++ " --build-only # Only build the image") ;;
  echo ("  " ++ argv0 ++ " --stop       # Stop the application") ;;
  echo ("  " ++ argv0 ++ " --logs       # View application logs") ;;
  echo "" ;;
  echo "Container Engine Support:" ;;
  echo "  - Docker (if available)" ;;
  echo "  - Podman (if available)".

(** [cmd 2>/dev/null || true] *)
Definition or_true (env : Env) (argv : list string) : M unit :=
  _ <- external env argv ;; ret tt.

(** [case "${1:-}" in ... esac]: the first argument, empty when absent. *)
Definition script (env : Env) (argv0 : string) (args : list string) : M unit :=
  let arg1 := hd "" args in
  if String.eqb arg1 "--help" || String.eqb arg1 "-h" then
    usage argv0 ;;
    exit 0
  else if String.eqb arg1 "--build-only" then
    check_container_runtime env ;;
    build_image env ;;
    print_success ("Image built successfully. Run with: " ++ argv0 ++ " --run-only") ;;
    exit 0
  else if String.eqb arg1 "--run-only" then
    check_container_runtime env ;;
    run_container env ;;
    show_status env ;;
    exit 0
  else if String.eqb arg1 "--stop" then
    detect_container_runtime env ;;
    print_status "Stopping and removing container..." ;;
    e <- engine ;;
    or_true env [e; "stop"; "oc-mirror-web-app"] ;;
    or_true env [e; "rm"; "oc-mirror-web-app"] ;;
    print_success "Container stopped and removed" ;;
    exit 0
  else if String.eqb arg1 "--logs" then
    detect_container_runtime env ;;
    e <- engine ;;
    must env [e; "logs"; "-f"; "oc-mirror-web-app"] ;;
    exit 0
  else if String.eqb arg1 "--engine" then
    detect_container_runtime env ;;
    e <- engine ;;
    echo ("Detected container engine: " ++ e) ;;
    exit 0
  else
    main env.

(** The shell the script starts in; [CONTAINER_ENGINE] may be inherited
    from the caller's environment. *)
Definition start (inherited : string) : Sh :=
  {| CONTAINER_ENGINE := inherited; clock := 0; stdout := [] |}.

(** The exit status of a run: the argument of [exit], or that of the
    last command ([echo], so 0) when the script runs to its end. *)
Definition exitStatus (env : Env) (argv0 : string) (args : list string)
           (inherited : string) : nat :=
  match script env argv0 args (start inherited) with
  | Exit c _ => c
  | Go _ _ => 0
  end.

(** A piece of script that always runs to its end. *)
Definition goes (m : M unit) : Prop := forall s, exists s', m s = Go tt s'.

(** An engine is usable when it is installed and its [info] succeeds. *)
Definition usableAt (env : Env) (e : string) (n : nat) : bool :=
  command_v env e && Nat.eqb (exec env [e; "info"] n) 0.

Definition neverUsable (env : Env) (e : string) : Prop :=
  forall n, usableAt env e n = false.

End Runner.

(* ===================================================================== *)
(** ** Vocabulary for the properties                                      *)
(* ===================================================================== *)
Module Wiring.
Import Dom SideMenu Shell.

(** The [onClick] prop [SideMenuContent] gives the item of [item]:
    [() => handleItemClick(item.path)]. *)
Definition itemOnClick (item : NavigationItem) : list string -> list string :=
  handleItemClick (path item).

(** The [href] of the anchor a rendered item holds. *)
Definition anchorHref (item : dom) : option string :=
  match children_of item with
  | a :: _ => attr_of "href" a
  | [] => None
  end.

(** Kinds of events in a history. *)
Definition isToggleSidebar (e : Event) : bool :=
  match e with
  | ToggleSidebar => true
  | _ => false
  end.

Definition isUnmount (e : Event) : bool :=
  match e with
  | Unmount => true
  | _ => false
  end.

(** A click whose target is not an element; every other event is fine. *)
Definition targetsElement (e : Event) : bool :=
  match e with
  | Click TargetNull | Click TargetNonElement => false
  | _ => true
  end.


(** Which part of a menu item a position below the item's [div] is: the
    [div] itself, its anchor, or the icon or label span in the anchor. *)
Definition partAt (rest : list nat) : Part :=
  match rest with
  | [] => OnDiv
  | [0] => OnLink
  | 0 :: 0 :: _ => OnIcon
  | _ => OnLabel
  end.

(** A click on the element at position [q] below the [nav], as a whole.
    The page is the [World] together with the assignments made so far to
    [window.location.href]. On the way up from the target React runs the
    [onClick] handlers: the toggle button's [toggleSidebar] when the target
    lies in the [nav]'s first child, the [onClick] of item [k] (through the
    [Link] when the target lies in it) when it lies in child [k+1]; the
    [nav] itself has none. *)
Definition panelHandlers (c : bool) (loc : Location) (q : list nat)
           (page : World * list string) : World * list string :=
  match q with
  | [] => page
  | 0 :: _ => (toggleSidebar (fst page), snd page)
  | Datatypes.S k :: rest =>
      match nth_error navigationItems k with
      | Some it =>
          (fst page,
           user (SideMenu.dispatchClick (itemProps loc c it) (itemOnClick it)
                                        (partAt rest) (freshDispatch (snd page))))
      | None => page
      end
  end.

(** Then the click reaches the document, whose listener runs with the
    target's chain. *)
Definition clickInPanel (c : bool) (loc : Location) (q : list nat)
           (chain : list string) (page : World * list string)
  : World * list string :=
  let page' := panelHandlers c loc q page in
  (dispatchDocumentClick (TargetElement chain) (fst page'), snd page').

(** A native key event: its [key], possibly a legacy name or
    "Unidentified", and its [keyCode]. *)
Record NativeKey : Type := mkNativeKey {
  nativeKey : string;
  keyCode : nat
}.

(** A key press on a menu item, from the native event: React computes the
    [key] of the event it hands to [handleKeyDown] from the native event
    ([reactKey], React's own normalisation, is a parameter here). *)
Definition keyDownOnItem {S : Type} (reactKey : NativeKey -> string)
           (p : ItemProps) (onClick : S -> S) (t : Part) (native : NativeKey)
           (d : Dispatch S) : Dispatch S :=
  dispatchKeyDown p onClick t (reactKey native) d.

End Wiring.

Module Outcome.
Import Runner.

(** [wp m Q E s]: run from [s], the piece of script [m] either goes on
    with a value and a state satisfying [Q], or exits with a status and a
    state satisfying [E]. *)
Definition wp {A} (m : M A) (Q : A -> Sh -> Prop) (E : nat -> Sh -> Prop)
           (s : Sh) : Prop :=
  match m s with
  | Go a s' => Q a s'
  | Exit c s' => E c s'
  end.

(** The state a whole run ends in. *)
Definition finalState (env : Env) (argv0 : string) (args : list string)
           (inherited : string) : Sh :=
  match script env argv0 args (start inherited) with
  | Exit _ s => s
  | Go _ s => s
  end.

(** [CONTAINER_ENGINE] names one of the two supported engines. *)
Definition engineChosen (s : Sh) : Prop :=
  CONTAINER_ENGINE s = "docker" \/ CONTAINER_ENGINE s = "podman".

(** The engine probe as the first detection of a run makes it: docker is
    probed by the run's first command; podman is probed only if that
    fails, by the next command ([command -v] itself is a builtin). *)
Definition dockerFound (env : Env) : bool := usableAt env "docker" 0.

Definition podmanFound (env : Env) : bool :=
  usableAt env "podman" (if command_v env "docker" then 1 else 0).

Definition detects (env : Env) : bool := dockerFound env || podmanFound env.

(** When that detection succeeds: the engine it settles on, and the
    number of commands (the [info] probes) it has run. *)
Definition detectedEngine (env : Env) : string :=
  if dockerFound env then "docker" else "podman".

Definition probes (env : Env) : nat :=
  if dockerFound env then 1 else if command_v env "docker" then 2 else 1.

(** A piece of script that only prints: it goes on, having run no command
    and left [CONTAINER_ENGINE] alone. *)
Definition printsOnly (m : M unit) : Prop :=
  forall s, exists s', m s = Go tt s'
                       /\ clock s' = clock s
                       /\ CONTAINER_ENGINE s' = CONTAINER_ENGINE s.

(** Run from [s], a piece of script ends well: it goes on with one of the
    two supported engines chosen, or it exits with status 0. *)
Definition endsWell (m : M unit) (s : Sh) : Prop :=
  wp m (fun _ s' => engineChosen s') (fun c _ => c = 0) s.

(** A machine on which every command succeeds, except possibly [chown]. *)
Definition onlyChownMayFail (env : Env) : Prop :=
  forall argv n, hd "" argv <> "chown" -> exec env argv n = 0.

End Outcome.

(* ===================================================================== *)
(** ** Properties of the side menu                                        *)
(* ===================================================================== *)
Import Dom SideMenu Shell.

(** What [SideMenuItem] renders shows exactly the [isActive] prop. *)
Lemma markedActive_SideMenuItem (p : ItemProps) :
  markedActive (SideMenuItem p) = isActive p.
Proof.
  destruct p as [t i l a c]; destruct a, c; reflexivity.
Qed.

Lemma markedActive_item (loc : Location) (c : bool) (it : NavigationItem) :
  markedActive (SideMenuItem (itemProps loc c it)) = String.eqb (pathname loc) (path it).
Proof. now rewrite markedActive_SideMenuItem. Qed.

Lemma renderedItems_SideMenuContent items c loc :
  renderedItems (SideMenuContent items c loc)
  = map (fun it => SideMenuItem (itemProps loc c it)) items.
Proof. reflexivity. Qed.

Lemma rendered_nth items c loc j d :
  nth_error (renderedItems (SideMenuContent items c loc)) j = Some d ->
  exists it, nth_error items j = Some it /\ d = SideMenuItem (itemProps loc c it).
Proof.
  rewrite renderedItems_SideMenuContent, nth_error_map.
  destruct (nth_error items j) as [it|]; simpl; intros H; [|discriminate].
  exists it; split; congruence.
Qed.

(** With pairwise distinct paths, a string selects at most one item. *)
Lemma unique_path_selects_at_most_one (s : string) (items : list NavigationItem) :
  NoDup (map path items) ->
  length (filter (fun it => String.eqb s (path it)) items) <= 1.
Proof.
  induction items as [|it rest IH]; simpl; intros ND; [lia|].
  inversion ND as [|x xs Hnotin ND']; subst.
  destruct (String.eqb_spec s (path it)) as [E|NE].
  - assert (Hnil : filter (fun it0 => String.eqb s (path it0)) rest = []).
    { destruct (filter _ rest) as [|y ys] eqn:F; [reflexivity|exfalso].
      assert (Hy : In y (filter (fun it0 => String.eqb s (path it0)) rest))
        by (rewrite F; now left).
      apply filter_In in Hy as [Hin Hy]. apply String.eqb_eq in Hy.
      apply Hnotin. rewrite <- E, Hy. now apply in_map. }
    simpl. rewrite Hnil. simpl; lia.
  - now apply IH.
Qed.

Lemma navigationItems_paths_distinct : NoDup (map path navigationItems).
Proof.
  simpl. repeat constructor; simpl; intuition discriminate.
Qed.

Lemma filter_markedActive items c loc :
  length (filter markedActive (renderedItems (SideMenuContent items c loc)))
  = length (filter (fun it => String.eqb (pathname loc) (path it)) items).
Proof.
  rewrite renderedItems_SideMenuContent.
  induction items as [|it rest IH]; simpl; [reflexivity|].
  rewrite markedActive_item.
  destruct (String.eqb (pathname loc) (path it)); simpl; now rewrite IH.
Qed.

(** C1. The panel renders one element per item, in order.  When the
    location's path equals the path of exactly one item of the registry,
    the element of that item is marked active and no other is; when it
    equals no item's path, no element is marked active (a path that is only
    a prefix or an extension of an item's path is not equal to it); and
    with the registry of [App] at most one element is marked active,
    whatever the location. *)
Theorem C1_exact_match_marks_one_item :
  forall (items : list NavigationItem) (loc : Location) (c : bool),
    let shown := renderedItems (SideMenuContent items c loc) in
    length shown = length items
    /\ (forall k it,
          nth_error items k = Some it ->
          path it = pathname loc ->
          (forall j it', nth_error items j = Some it' ->
                         path it' = pathname loc -> j = k) ->
          forall j d, nth_error shown j = Some d ->
                      (markedActive d = true <-> j = k))
    /\ ((forall it, In it items -> path it <> pathname loc) ->
        forall d, In d shown -> markedActive d = false)
    /\ length (filter markedActive
                 (renderedItems (SideMenuContent navigationItems c loc))) <= 1.
Proof.
  intros items loc c shown. subst shown.
  split; [|split; [|split]].
  - rewrite renderedItems_SideMenuContent. apply length_map.
  - intros k it Hk Hpath Huniq j d Hd.
    apply rendered_nth in Hd as (it' & Hj & ->).
    rewrite markedActive_item. split.
    + intros E. apply String.eqb_eq in E. now apply (Huniq j it').
    + intros ->. rewrite Hk in Hj. injection Hj as <-.
      apply String.eqb_eq. now symmetry.
  - intros Hnone d Hd.
    rewrite renderedItems_SideMenuContent in Hd.
    apply in_map_iff in Hd as (it & <- & Hin).
    rewrite markedActive_item. apply String.eqb_neq.
    intros E. now apply (Hnone it Hin).
  - rewrite filter_markedActive.
    apply unique_path_selects_at_most_one, navigationItems_paths_distinct.
Qed.

(** At "/config" the second item of [App]'s registry, and only it, is
    active; at "/conf" and at "/config/" none is. *)
Lemma C1_exact_match_marks_one_item_witness :
  (forall j d,
      nth_error (renderedItems
                   (SideMenuContent navigationItems false (mkLocation "/config" "" ""))) j
      = Some d ->
      (markedActive d = true <-> j = 1))
  /\ (forall d,
        In d (renderedItems
                (SideMenuContent navigationItems false (mkLocation "/conf" "" ""))) ->
        markedActive d = false)
  /\ (forall d,
        In d (renderedItems
                (SideMenuContent navigationItems false (mkLocation "/config/" "" ""))) ->
        markedActive d = false).
Proof.
  split; [|split].
  - destruct (C1_exact_match_marks_one_item
                navigationItems (mkLocation "/config" "" "") false)
      as (_ & Hone & _).
    apply (Hone 1 (mkItem "/config" "⚙️" "Mirror Configuration" MirrorConfig)).
    + reflexivity.
    + reflexivity.
    + intros j it' Hj Hp.
      do 5 (destruct j as [|j]; [simpl in Hj; injection Hj as <-;
                                 simpl in Hp; try discriminate; reflexivity|]).
      destruct j; discriminate.
  - destruct (C1_exact_match_marks_one_item
                navigationItems (mkLocation "/conf" "" "") false)
      as (_ & _ & Hnone & _).
    apply Hnone. intros it Hin. simpl in Hin.
    repeat (destruct Hin as [<-|Hin]; [simpl; discriminate|]). contradiction.
  - destruct (C1_exact_match_marks_one_item
                navigationItems (mkLocation "/config/" "" "") false)
      as (_ & _ & Hnone & _).
    apply Hnone. intros it Hin. simpl in Hin.
    repeat (destruct Hin as [<-|Hin]; [simpl; discriminate|]). contradiction.
Defined.

Lemma item_views (loc : Location) (it : NavigationItem) :
  labelShown (SideMenuItem (itemProps loc false it)) = true
  /\ labelShown (SideMenuItem (itemProps loc true it)) = false
  /\ attr_of "aria-label" (SideMenuItem (itemProps loc true it)) = Some (label it)
  /\ attr_of "title" (SideMenuItem (itemProps loc true it)) = Some (label it)
  /\ attr_of "aria-label" (SideMenuItem (itemProps loc false it)) = None
  /\ attr_of "title" (SideMenuItem (itemProps loc false it)) = None.
Proof.
  unfold itemProps, SideMenuItem, labelShown; simpl.
  destruct (String.eqb (pathname loc) (path it)); repeat split; reflexivity.
Qed.

(** C5. Going from [collapsed = false] to [collapsed = true]:
    [toggleSidebar] flips the flag and nothing else of the instance; in the
    panel rendered afterwards no item shows its label (each did before),
    every item carries its label as [aria-label] and as [title], the toggle
    control's [aria-expanded] goes from "true" to "false", and the same
    items are marked active as before. *)
Theorem C5_collapse_hides_labels_keeps_active :
  forall (items : list NavigationItem) (loc : Location)
         (ls : list Listener) (l : Listener) (m : bool) (n u : nat),
    let before := SideMenuContent items false loc in
    let after := SideMenuContent items true loc in
    toggleSidebar (mkWorld ls (Some (mkInstance (mkState false m) l)) n u)
    = mkWorld ls (Some (mkInstance (mkState true m) l)) n u
    /\ map labelShown (renderedItems before) = map (fun _ => true) items
    /\ map labelShown (renderedItems after) = map (fun _ => false) items
    /\ map (attr_of "aria-label") (renderedItems after)
       = map (fun it => Some (label it)) items
    /\ map (attr_of "title") (renderedItems after)
       = map (fun it => Some (label it)) items
    /\ toggleExpanded before = Some "true"
    /\ toggleExpanded after = Some "false"
    /\ map markedActive (renderedItems after)
       = map markedActive (renderedItems before).
Proof.
  intros items loc ls l m n u before after. subst before after.
  rewrite !renderedItems_SideMenuContent, !map_map.
  split; [reflexivity|].
  repeat split; try reflexivity;
    apply map_ext; intros it;
    try (now rewrite !markedActive_item);
    now destruct (item_views loc it) as (A & B & C & D & _).
Qed.

(** A key other than Enter and Space is left alone by [handleKeyDown]. *)
Lemma handleKeyDown_other_key (S : Type) (onClick : S -> S) (key : string)
      (d : Dispatch S) :
  key <> "Enter" -> key <> " " -> handleKeyDown onClick key d = d.
Proof.
  intros HE HS. unfold handleKeyDown.
  apply String.eqb_neq in HE, HS. now rewrite HE, HS.
Qed.

(** C2. Whatever the [onClick] prop does and wherever in the item the
    event is targeted: a click leaves the caller's state as one call of
    [onClick] leaves it, the [Link] navigates nowhere itself and the
    anchor's own navigation does not happen; a key press of Enter or Space
    also leaves the state as one call leaves it, with the key's default
    action (scrolling on Space) prevented. *)
Theorem C2_one_activation_per_event :
  forall (S : Type) (onClick : S -> S) (p : ItemProps) (t : Part) (s : S),
    let c := SideMenu.dispatchClick p onClick t (freshDispatch s) in
    user c = onClick s
    /\ linkNavigations c = []
    /\ nativeAnchorNavigation t c = false
    /\ (forall key, key = "Enter" \/ key = " " ->
          let k := dispatchKeyDown p onClick t key (freshDispatch s) in
          user k = onClick s
          /\ defaultPrevented k = true
          /\ linkNavigations k = []
          /\ user k = user c).
Proof.
  intros S onClick p t s c. subst c.
  assert (Hc : user (SideMenu.dispatchClick p onClick t (freshDispatch s)) = onClick s)
    by (destruct t; reflexivity).
  split; [exact Hc|].
  split; [destruct t; reflexivity|].
  split; [destruct t; reflexivity|].
  intros key [-> | ->]; cbv zeta; rewrite Hc; repeat split; reflexivity.
Qed.

(** The second item of the menu, with [onClick] the assignment
    [window.location.href = "/config"]: a click on its label and the
    Space key on the item each make that assignment once. *)
Lemma C2_one_activation_per_event_witness :
  let p := itemProps (mkLocation "/" "" "") false
                     (mkItem "/config" "⚙️" "Mirror Configuration" MirrorConfig) in
  user (SideMenu.dispatchClick p (handleItemClick "/config") OnLabel (freshDispatch []))
  = ["/config"]
  /\ user (dispatchKeyDown p (handleItemClick "/config") OnDiv " " (freshDispatch []))
     = ["/config"]
  /\ defaultPrevented
       (dispatchKeyDown p (handleItemClick "/config") OnDiv " " (freshDispatch []))
     = true.
Proof.
  intros p.
  destruct (C2_one_activation_per_event
              (list string) (handleItemClick "/config") p OnLabel [])
    as (Hc & _ & _ & _).
  destruct (C2_one_activation_per_event
              (list string) (handleItemClick "/config") p OnDiv [])
    as (_ & _ & _ & Hk).
  destruct (Hk " " (or_intror eq_refl)) as (Hu & Hd & _).
  split; [exact Hc|]. split; [exact Hu | exact Hd].
Defined.

(* ===================================================================== *)
(** ** Properties of [App]: state, effects and the document listener      *)
(* ===================================================================== *)

Lemma sameClosure_refl (l : Listener) : sameClosure l l = true.
Proof. apply Nat.eqb_refl. Qed.

Lemma consistent_initial : consistent initial.
Proof. reflexivity. Qed.

Lemma consistent_setIsMobileMenuOpen (f : bool -> bool) (w : World) :
  consistent w -> consistent (setIsMobileMenuOpen f w).
Proof.
  unfold consistent, setIsMobileMenuOpen.
  destruct (app w) as [inst|] eqn:A; [|now rewrite A].
  intros [L C].
  destruct (Bool.eqb _ _); [now rewrite A|].
  simpl. rewrite L. simpl. rewrite sameClosure_refl. now split.
Qed.

Lemma consistent_setSidebarCollapsed (f : bool -> bool) (w : World) :
  consistent w -> consistent (setSidebarCollapsed f w).
Proof.
  unfold consistent, setSidebarCollapsed.
  destruct (app w) as [inst|] eqn:A; [|now rewrite A].
  simpl. tauto.
Qed.

Lemma consistent_mount (w : World) :
  app w = None -> consistent w -> consistent (mount w).
Proof.
  unfold consistent. intros A. rewrite A. intros L.
  unfold mount, closeOnMountEffect, setIsMobileMenuOpen, runListenerEffect.
  simpl. rewrite L. simpl. now split.
Qed.

Lemma consistent_unmount (w : World) : consistent w -> consistent (unmount w).
Proof.
  unfold consistent, unmount.
  destruct (app w) as [inst|] eqn:A; [|now rewrite A].
  intros [L C]. simpl. rewrite L. simpl. now rewrite sameClosure_refl.
Qed.

Lemma consistent_applyUpdates (queue : list bool) (w : World) :
  consistent w -> consistent (applyUpdates queue w).
Proof.
  revert w. unfold applyUpdates.
  induction queue as [|v q IH]; simpl; intros w H; [exact H|].
  now apply IH, consistent_setIsMobileMenuOpen.
Qed.

Lemma consistent_dispatchDocumentClick (t : EventTarget) (w : World) :
  consistent w -> consistent (dispatchDocumentClick t w).
Proof.
  intros H. unfold dispatchDocumentClick.
  destruct (callListeners (listeners w) t [] 0) as [queue errors].
  apply consistent_applyUpdates. exact H.
Qed.

Lemma consistent_step (w : World) (e : Event) : consistent w -> consistent (step w e).
Proof.
  intros H. destruct e; simpl.
  - destruct (app w) eqn:A; [exact H | now apply consistent_mount].
  - now apply consistent_unmount.
  - now apply consistent_setSidebarCollapsed.
  - now apply consistent_setIsMobileMenuOpen.
  - now apply consistent_dispatchDocumentClick.
Qed.

Lemma consistent_run_from (es : list Event) (w : World) :
  consistent w -> consistent (run w es).
Proof.
  revert w. unfold run.
  induction es as [|e es IH]; simpl; intros w H; [exact H|].
  now apply IH, consistent_step.
Qed.

(** Every page state reached from the first render is consistent. *)
Lemma consistent_run (es : list Event) : consistent (run initial es).
Proof. apply consistent_run_from, consistent_initial. Qed.

Lemma app_unmount (w : World) : app (unmount w) = None.
Proof. unfold unmount. destruct (app w) eqn:A; [reflexivity | exact A]. Qed.

(** C4. Whatever the page held before (any listeners, any earlier instance
    in any state), the instance [mount] leaves has both flags false; so
    has the instance mounted after any history of events ending in an
    unmount. *)
Theorem C4_mount_resets_flags :
  (forall w : World, appState (mount w) = Some (mkState false false))
  /\ (forall es : list Event,
        appState (step (unmount (run initial es)) Mount)
        = Some (mkState false false)).
Proof.
  split.
  - intros w. reflexivity.
  - intros es. simpl. now rewrite app_unmount.
Qed.

(** C6. After any sequence of events from the first render: while [App]
    is mounted the document holds exactly one click listener, the closure
    registered by the latest run of the effect; while it is not mounted the
    document holds none. In particular nothing is left after an unmount,
    and a later mount starts from an empty list again. *)
Theorem C6_one_listener_while_mounted :
  forall es : list Event,
    let w := run initial es in
    match app w with
    | Some inst => listeners w = [registered inst]
    | None => listeners w = []
    end
    /\ listeners (step w Unmount) = []
    /\ length (listeners (run w [Unmount; Mount])) = 1
    /\ listeners (run w [Unmount; Mount; Unmount]) = [].
Proof.
  intros es w.
  pose proof (consistent_run es) as H. fold w in H.
  split; [|split; [|split]].
  - unfold consistent in H. destruct (app w); tauto.
  - pose proof (consistent_step w Unmount H) as H'.
    unfold consistent in H'. simpl in *. now rewrite app_unmount in H'.
  - pose proof (consistent_run_from [Unmount; Mount] w H) as H'.
    unfold consistent in H'.
    replace (run w [Unmount; Mount]) with (mount (unmount w)) in *
      by (unfold run; simpl; now rewrite app_unmount).
    change (app (mount (unmount w)))
      with (Some (mkInstance (mkState false false)
                             (mkListener (nextId (unmount w)) false))) in H'.
    destruct H' as [-> _]. reflexivity.
  - pose proof (consistent_run_from [Unmount; Mount; Unmount] w H) as H'.
    unfold consistent in H'.
    replace (app (run w [Unmount; Mount; Unmount])) with (@None Instance) in H'.
    + exact H'.
    + unfold run; simpl. now rewrite app_unmount.
Qed.

Lemma reportErrors_0 (w : World) : reportErrors 0 w = w.
Proof. destruct w; unfold reportErrors; simpl. now rewrite Nat.add_0_r. Qed.

(** On a consistent page a click calls the one registered closure, which
    sees the current [isMobileMenuOpen]. *)
Lemma dispatchDocumentClick_consistent (t : EventTarget) (w : World) (inst : Instance) :
  consistent w -> app w = Some inst ->
  dispatchDocumentClick t w
  = match handleClickOutside (isMobileMenuOpen (state inst)) t with
    | Returned (Some v) => setIsMobileMenuOpen (fun _ => v) w
    | Returned None => w
    | ThrewTypeError => reportErrors 1 w
    end.
Proof.
  unfold consistent. intros H A. rewrite A in H. destruct H as [L C].
  unfold dispatchDocumentClick. rewrite L. simpl. rewrite C.
  destruct (handleClickOutside (isMobileMenuOpen (state inst)) t) as [[v|]|];
    simpl; now rewrite ?reportErrors_0.
Qed.

Lemma appState_setIsMobileMenuOpen (f : bool -> bool) (w : World) (inst : Instance) :
  app w = Some inst ->
  appState (setIsMobileMenuOpen f w)
  = Some (mkState (sidebarCollapsed (state inst)) (f (isMobileMenuOpen (state inst)))).
Proof.
  intros A. unfold setIsMobileMenuOpen. rewrite A.
  destruct (Bool.eqb _ _) eqn:E; [|reflexivity].
  apply Bool.eqb_prop in E. unfold appState. rewrite A. simpl. rewrite E.
  now destruct (state inst).
Qed.

(** C10. Called with [isMobileMenuOpen] false the handler returns without
    setting anything, for every target (it does not even look at the
    target); and on every page reached from the first render whose menu
    is closed, a click on any target leaves the whole page state as it was:
    both flags, the registered listener, and no error raised. *)
Theorem C10_listener_cannot_open :
  (forall t : EventTarget, handleClickOutside false t = Returned None)
  /\ (forall (es : list Event) (t : EventTarget) (st : AppState),
        appState (run initial es) = Some st ->
        isMobileMenuOpen st = false ->
        step (run initial es) (Click t) = run initial es).
Proof.
  split; [reflexivity|].
  intros es t st A O. simpl.
  pose proof (consistent_run es) as H.
  unfold appState in A.
  destruct (app (run initial es)) as [inst|] eqn:E; [|discriminate].
  injection A as <-.
  rewrite (dispatchDocumentClick_consistent t _ inst H E), O. reflexivity.
Qed.

(** Once mounted, with the menu never opened, a click on the document node
    changes nothing. *)
Lemma C10_listener_cannot_open_witness :
  step (run initial [Mount; ToggleSidebar]) (Click TargetNonElement)
  = run initial [Mount; ToggleSidebar].
Proof.
  destruct C10_listener_cannot_open as [_ H].
  apply (H [Mount; ToggleSidebar] TargetNonElement (mkState true false)); reflexivity.
Defined.

(** *** Where a click lands: the tree and [closest] *)


(** The chain of a node ends with the chain of the subtree's root. *)
Lemma chainAt_suffix :
  forall (p : list nat) (d : dom) (above chain : list string),
    chainAt p d above = Some chain ->
    exists pre, chain = (pre ++ className_of d :: above)%list.
Proof.
  induction p as [|i p IH]; intros d above chain C;
    destruct d as [tag c attrs kids|]; simpl in *; try discriminate.
  - injection C as <-. now exists [].
  - destruct (nth_error kids i) as [k|]; [|discriminate].
    destruct (IH _ _ _ C) as [pre ->].
    exists (pre ++ [className_of k])%list. now rewrite <- app_assoc.
Qed.

Lemma closest_finds (cls c : string) (pre above : list string) :
  hasClass cls c = true -> closest cls (pre ++ c :: above)%list <> None.
Proof.
  intros H. induction pre as [|x pre IH]; simpl.
  - now rewrite H.
  - now destruct (hasClass cls x).
Qed.



Lemma closest_side_menu_inside (st : AppState) (loc : Location)
      (content : Content) (toasts : dom) (above : list string)
      (p : list nat) (chain : list string) :
  chainAt p (App_render st loc content toasts) above = Some chain ->
  isPrefix navPath p = true ->
  closest "side-menu" chain <> None.
Proof.
  intros C P.
  destruct p as [|[|[|i]] [|[|j] p]]; try discriminate P.
  simpl in C. apply chainAt_suffix in C as [pre ->].
  apply closest_finds. simpl. now destruct (sidebarCollapsed st).
Qed.

(** *** The mobile-menu machine *)

(** What a click does to the flags of a consistent, mounted page. *)
Lemma appState_click (t : EventTarget) (w : World) (st : AppState) :
  consistent w -> appState w = Some st ->
  appState (dispatchDocumentClick t w)
  = match handleClickOutside (isMobileMenuOpen st) t with
    | Returned (Some v) => Some (mkState (sidebarCollapsed st) v)
    | _ => Some st
    end.
Proof.
  intros H A. unfold appState in A.
  destruct (app w) as [inst|] eqn:E; [|discriminate]. injection A as <-.
  rewrite (dispatchDocumentClick_consistent t w inst H E).
  destruct (handleClickOutside (isMobileMenuOpen (state inst)) t) as [[v|]|].
  - now rewrite (appState_setIsMobileMenuOpen _ w inst E).
  - unfold appState. now rewrite E.
  - unfold appState, reportErrors. simpl. now rewrite E.
Qed.



(** *** Targets that are not elements *)

(** The handler reads [closest] off the target only when its captured flag
    is true: called with the flag true and a target that is [null] or has
    no [closest] it would throw, with the flag false it returns for every
    target. *)
Lemma handleClickOutside_reads_target_only_when_open :
  handleClickOutside true TargetNull = ThrewTypeError
  /\ handleClickOutside true TargetNonElement = ThrewTypeError
  /\ (forall t : EventTarget, handleClickOutside false t = Returned None).
Proof. repeat split; reflexivity. Qed.

(* ===================================================================== *)
(** ** Properties of the runner script                                    *)
(* ===================================================================== *)
Import Runner.

Lemma bind_Exit {A B} (m : M A) (k : A -> M B) (s s' : Sh) (c : nat) :
  m s = Exit c s' -> bind m k s = Exit c s'.
Proof. intros H. unfold bind. now rewrite H. Qed.

Lemma bind_Go {A B} (m : M A) (k : A -> M B) (s s' : Sh) (a : A) :
  m s = Go a s' -> bind m k s = k a s'.
Proof. intros H. unfold bind. now rewrite H. Qed.

Lemma bind_echo {B} (line : string) (k : unit -> M B) (s : Sh) :
  bind (echo line) k s
  = k tt (mkSh (CONTAINER_ENGINE s) (clock s) (stdout s ++ [line])).
Proof. reflexivity. Qed.

(** The probe of an engine that is never usable answers false. *)
Lemma found_and_running_unusable (env : Env) (e : string) (s : Sh) :
  neverUsable env e -> exists s', found_and_running env e s = Go false s'.
Proof.
  intros N. specialize (N (clock s)). unfold usableAt in N.
  unfold found_and_running.
  destruct (command_v env e); simpl in N.
  - unfold bind, external, ret. rewrite N. eauto.
  - unfold ret. eauto.
Qed.

Lemma detect_unusable (env : Env) (s : Sh) :
  neverUsable env "docker" -> neverUsable env "podman" ->
  exists s', detect_container_runtime env s = Exit 1 s'.
Proof.
  intros ND NP. unfold detect_container_runtime.
  destruct (found_and_running_unusable env "docker" s ND) as [s1 H1].
  rewrite (bind_Go _ _ _ _ _ H1).
  destruct (found_and_running_unusable env "podman" s1 NP) as [s2 H2].
  rewrite (bind_Go _ _ _ _ _ H2).
  unfold print_error. rewrite !bind_echo. unfold exit. eauto.
Qed.

Lemma check_unusable (env : Env) (s : Sh) :
  neverUsable env "docker" -> neverUsable env "podman" ->
  exists s', check_container_runtime env s = Exit 1 s'.
Proof.
  intros ND NP. destruct (detect_unusable env s ND NP) as [s' H].
  exists s'. unfold check_container_runtime. now apply bind_Exit.
Qed.

Lemma echo_goes (line : string) : goes (echo line).
Proof. intros s. unfold echo. eauto. Qed.

Lemma seq_goes (m k : M unit) : goes m -> goes k -> goes (m ;; k).
Proof.
  intros Hm Hk s. destruct (Hm s) as [s1 H1].
  rewrite (bind_Go _ _ _ _ _ H1). apply Hk.
Qed.

(** Printing the usage never ends the script. *)
Lemma usage_goes (argv0 : string) : goes (usage argv0).
Proof. unfold usage. repeat apply seq_goes; apply echo_goes. Qed.

(** No engine installed, the script asked for its help text: status 0,
    not 1. *)
Lemma C9_help_without_engine :
  let env := mkEnv (fun _ => false) (fun _ _ => 127) "/srv/app" in
  neverUsable env "docker"
  /\ neverUsable env "podman"
  /\ exitStatus env "./container-run.sh" ["--help"] "" = 0
  /\ exitStatus env "./container-run.sh" ["--help"] "" <> 1.
Proof.
  intros env. split; [|split; [|split]].
  - intros n. reflexivity.
  - intros n. reflexivity.
  - reflexivity.
  - discriminate.
Qed.

(** C9, as the code has it. Invoked with [--help] or [-h] as first argument
    the script exits with status 0, whatever the machine; invoked with any
    other first argument, or none, it exits with status 1 whenever neither
    docker nor podman is both installed and answering [info]. *)
Theorem C9_exit_status :
  forall (env : Env) (argv0 : string) (args : list string) (inherited : string),
    (hd "" args = "--help" \/ hd "" args = "-h" ->
     exitStatus env argv0 args inherited = 0)
    /\ (hd "" args <> "--help" -> hd "" args <> "-h" ->
        neverUsable env "docker" -> neverUsable env "podman" ->
        exitStatus env argv0 args inherited = 1).
Proof.
  intros env argv0 args inherited. unfold exitStatus, script. split.
  - intros H.
    assert (E : (String.eqb (hd "" args) "--help" || String.eqb (hd "" args) "-h") = true)
      by (destruct H as [-> | ->]; reflexivity).
    rewrite E.
    destruct (usage_goes argv0 (start inherited)) as [s' U].
    now rewrite (bind_Go _ _ _ _ _ U).
  - intros H1 H2 ND NP.
    apply String.eqb_neq in H1, H2. rewrite H1, H2. simpl.
    destruct (check_unusable env (start inherited) ND NP) as [sc Hc].
    destruct (detect_unusable env (start inherited) ND NP) as [sd Hd].
    repeat match goal with
           | |- context [if ?b then _ else _] => destruct b
           end;
      try (now rewrite (bind_Exit _ _ _ _ _ Hc));
      try (now rewrite (bind_Exit _ _ _ _ _ Hd)).
    unfold main. rewrite !bind_echo.
    match goal with
    | |- context [bind (check_container_runtime env) _ ?s] =>
        destruct (check_unusable env s ND NP) as [sm Hm];
        now rewrite (bind_Exit _ _ _ _ _ Hm)
    end.
Qed.

(** On a machine with docker installed but not answering and without
    podman: [-h] gives 0, [--stop] and a plain run give 1. *)
Lemma C9_exit_status_witness :
  let env := mkEnv (fun e => String.eqb e "docker") (fun _ _ => 1) "/srv/app" in
  exitStatus env "./container-run.sh" ["-h"] "" = 0
  /\ exitStatus env "./container-run.sh" ["--stop"] "" = 1
  /\ exitStatus env "./container-run.sh" [] "" = 1.
Proof.
  intros env.
  assert (ND : neverUsable env "docker") by (intros n; reflexivity).
  assert (NP : neverUsable env "podman") by (intros n; reflexivity).
  split; [|split].
  - apply (C9_exit_status env "./container-run.sh" ["-h"] "").
    right; reflexivity.
  - apply (C9_exit_status env "./container-run.sh" ["--stop"] "");
      [discriminate | discriminate | exact ND | exact NP].
  - apply (C9_exit_status env "./container-run.sh" [] "");
      [discriminate | discriminate | exact ND | exact NP].
Defined.

(* ===================================================================== *)
(** ** Further properties of the shell                                    *)
(* ===================================================================== *)
Import Wiring.

Lemma mounted_instance (w : World) (st : AppState) :
  appState w = Some st -> exists inst, app w = Some inst /\ state inst = st.
Proof.
  unfold appState. destruct (app w) as [inst|]; [|discriminate].
  intros H. injection H as <-. now exists inst.
Qed.

(** Run for an element with a [side-menu] ancestor, the listener leaves a
    consistent mounted page as it is. *)
Lemma listener_ignores_panel (w : World) (inst : Instance) (chain : list string) :
  consistent w -> app w = Some inst ->
  closest "side-menu" chain <> None ->
  dispatchDocumentClick (TargetElement chain) w = w.
Proof.
  intros H E K.
  rewrite (dispatchDocumentClick_consistent _ _ inst H E).
  unfold handleClickOutside.
  destruct (isMobileMenuOpen (state inst)); [|reflexivity].
  now destruct (closest "side-menu" chain).
Qed.

(** X1. A whole click on an element of the Navigation Panel, on every page
    reached from the first render (menu open or closed, the tree rendered
    collapsed or not): the document listener adds nothing to what the
    element's own handlers do. The mobile menu keeps its state, the
    registered listener stays and no error is raised; a click in the toggle
    button does what [toggleSidebar] does and assigns no location; a click
    in item [k] leaves the shell state alone and assigns that item's path
    to [window.location.href], once; a click on the [nav] itself changes
    nothing. *)
Theorem click_in_panel_runs_only_its_handler :
  forall (es : list Event) (st st0 : AppState) (c : bool) (loc : Location)
         (content : Content) (toasts : dom) (above : list string)
         (q : list nat) (chain : list string) (hrefs : list string),
    appState (run initial es) = Some st ->
    chainAt (navPath ++ q) (App_render st0 loc content toasts) above = Some chain ->
    let w := run initial es in
    let page' := clickInPanel c loc q chain (w, hrefs) in
    page' = panelHandlers c loc q (w, hrefs)
    /\ option_map isMobileMenuOpen (appState (fst page')) = Some (isMobileMenuOpen st)
    /\ listeners (fst page') = listeners w
    /\ uncaught (fst page') = uncaught w
    /\ match q with
       | [] => page' = (w, hrefs)
       | 0 :: _ => fst page' = toggleSidebar w /\ snd page' = hrefs
       | Datatypes.S k :: _ =>
           fst page' = w
           /\ forall it, nth_error navigationItems k = Some it ->
                         snd page' = (hrefs ++ [path it])%list
       end.
Proof.
  intros es st st0 c loc content toasts above q chain hrefs A C w page'.
  subst page'. fold w in A.
  destruct (mounted_instance _ _ A) as (inst & E & <-).
  assert (K : closest "side-menu" chain <> None).
  { apply (closest_side_menu_inside st0 loc content toasts above (navPath ++ q) chain C).
    reflexivity. }
  assert (Hw : consistent w) by apply consistent_run.
  assert (Ht : consistent (toggleSidebar w))
    by (apply consistent_setSidebarCollapsed, Hw).
  assert (Et : app (toggleSidebar w)
               = Some (mkInstance (mkState (negb (sidebarCollapsed (state inst)))
                                           (isMobileMenuOpen (state inst)))
                                  (registered inst)))
    by (unfold toggleSidebar, setSidebarCollapsed; now rewrite E).
  assert (First : clickInPanel c loc q chain (w, hrefs)
                  = panelHandlers c loc q (w, hrefs)).
  { unfold clickInPanel.
    destruct q as [|[|k] rest]; simpl.
    - now rewrite (listener_ignores_panel w inst chain Hw E K).
    - now rewrite (listener_ignores_panel (toggleSidebar w) _ chain Ht Et K).
    - destruct (nth_error navigationItems k); simpl;
        now rewrite (listener_ignores_panel w inst chain Hw E K). }
  rewrite First. split; [reflexivity|].
  destruct q as [|[|k] rest]; simpl.
  - unfold appState. rewrite E. repeat split; reflexivity.
  - unfold appState. rewrite Et. simpl.
    unfold toggleSidebar, setSidebarCollapsed. rewrite E. simpl.
    repeat split; reflexivity.
  - destruct (nth_error navigationItems k) as [it|] eqn:N; simpl;
      unfold appState; rewrite E; repeat split; try reflexivity.
    + intros it' Hit. injection Hit as <-. now destruct (partAt rest).
    + intros it' Hit. discriminate Hit.
Qed.

(** The menu open: a click on the glyph of the toggle button collapses the
    sidebar and leaves the menu open; a click on the label of the second
    item assigns "/config" and leaves the shell as it is. *)
Lemma click_in_panel_runs_only_its_handler_witness :
  let w := run initial [Mount; ToggleMobileMenu] in
  appState (fst (clickInPanel false (mkLocation "/" "" "") [0; 0]
                              [""; "sidebar-toggle"; "side-menu"; "main-layout"; "App"]
                              (w, [])))
  = Some (mkState true true)
  /\ clickInPanel false (mkLocation "/" "" "") [2; 0; 1]
                  ["side-menu-label"; ""; "side-menu-item "; "side-menu";
                   "main-layout"; "App"]
                  (w, [])
     = (w, ["/config"]).
Proof.
  intros w. split.
  - destruct (click_in_panel_runs_only_its_handler
                [Mount; ToggleMobileMenu] (mkState false true) (mkState false true)
                false (mkLocation "/" "" "") NoMatch (Text "") [] [0; 0]
                [""; "sidebar-toggle"; "side-menu"; "main-layout"; "App"] []
                eq_refl eq_refl) as (_ & _ & _ & _ & Hf & _).
    fold w in Hf. rewrite Hf. reflexivity.
  - destruct (click_in_panel_runs_only_its_handler
                [Mount; ToggleMobileMenu] (mkState false true) (mkState false true)
                false (mkLocation "/" "" "") NoMatch (Text "") [] [2; 0; 1]
                ["side-menu-label"; ""; "side-menu-item "; "side-menu";
                 "main-layout"; "App"] []
                eq_refl eq_refl) as (_ & _ & _ & _ & Hf & Hs).
    fold w in Hf, Hs.
    rewrite (surjective_pairing (clickInPanel _ _ _ _ _)).
    rewrite Hf, (Hs _ eq_refl). reflexivity.
Defined.

Lemma listeners_unmount_run (es : list Event) :
  listeners (unmount (run initial es)) = [].
Proof.
  pose proof (consistent_unmount _ (consistent_run es)) as H.
  unfold consistent in H. now rewrite app_unmount in H.
Qed.

(** X2. Once [App] is unmounted, whatever happened before, every event
    other than a new mount leaves the page exactly as it is: no listener
    is left to run, so even a click with a [null] target raises nothing. *)
Theorem unmounted_page_is_inert :
  forall (es : list Event) (e : Event),
    e <> Mount ->
    step (unmount (run initial es)) e = unmount (run initial es).
Proof.
  intros es e NM.
  pose proof (app_unmount (run initial es)) as A.
  pose proof (listeners_unmount_run es) as L.
  destruct e as [| | | |t]; simpl.
  - now contradiction NM.
  - unfold unmount at 1. now rewrite A.
  - unfold toggleSidebar, setSidebarCollapsed. now rewrite A.
  - unfold toggleMobileMenu, setIsMobileMenuOpen. now rewrite A.
  - unfold dispatchDocumentClick. rewrite L. simpl. apply reportErrors_0.
Qed.

Lemma unmounted_page_is_inert_witness :
  step (unmount (run initial [Mount; ToggleMobileMenu])) (Click TargetNull)
  = unmount (run initial [Mount; ToggleMobileMenu]).
Proof.
  apply (unmounted_page_is_inert [Mount; ToggleMobileMenu] (Click TargetNull)).
  discriminate.
Defined.

(** What each event does to [sidebarCollapsed] on a consistent, mounted
    page. *)
Lemma sidebarCollapsed_step (w : World) (e : Event) (st : AppState) :
  consistent w -> appState w = Some st -> isUnmount e = false ->
  exists st', appState (step w e) = Some st'
              /\ sidebarCollapsed st'
                 = xorb (sidebarCollapsed st) (isToggleSidebar e).
Proof.
  intros H A U. destruct (mounted_instance _ _ A) as (inst & E & <-).
  destruct e as [| | | |t]; simpl in *; try discriminate.
  - rewrite E. exists (state inst). split; [exact A | now rewrite xorb_false_r].
  - unfold toggleSidebar, setSidebarCollapsed, appState. rewrite E. simpl.
    eexists; split; [reflexivity|]. simpl. now rewrite xorb_true_r.
  - unfold toggleMobileMenu. rewrite (appState_setIsMobileMenuOpen _ _ inst E).
    eexists; split; [reflexivity|]. simpl. now rewrite xorb_false_r.
  - rewrite (appState_click t w (state inst) H A).
    destruct (handleClickOutside _ t) as [[v|]|];
      eexists; (split; [reflexivity|]); simpl; now rewrite xorb_false_r.
Qed.

Lemma sidebarCollapsed_run (es : list Event) :
  forall (w : World) (st : AppState),
    consistent w -> appState w = Some st ->
    forallb (fun e => negb (isUnmount e)) es = true ->
    exists st', appState (run w es) = Some st'
                /\ sidebarCollapsed st'
                   = xorb (sidebarCollapsed st)
                          (Nat.odd (length (filter isToggleSidebar es))).
Proof.
  induction es as [|e es IH]; intros w st H A U; simpl in *.
  - exists st. split; [exact A | now rewrite xorb_false_r].
  - apply andb_prop in U as [Ue U]. apply negb_true_iff in Ue.
    destruct (sidebarCollapsed_step w e st H A Ue) as (st1 & A1 & S1).
    destruct (IH (step w e) st1 (consistent_step w e H) A1 U) as (st' & A' & S').
    exists st'. split; [exact A'|]. rewrite S', S1.
    destruct (isToggleSidebar e); simpl length.
    + rewrite Nat.odd_succ, <- Nat.negb_odd.
      now destruct (sidebarCollapsed st), (Nat.odd _).
    + now rewrite xorb_false_r.
Qed.

(** X3. While [App] stays mounted, the sidebar is collapsed exactly when
    [toggleSidebar] has been called an odd number of times since the mount:
    clicks anywhere and the mobile-menu toggle never touch it. *)
Theorem collapsed_is_parity_of_sidebar_toggles :
  forall es : list Event,
    forallb (fun e => negb (isUnmount e)) es = true ->
    option_map sidebarCollapsed (appState (run (mount initial) es))
    = Some (Nat.odd (length (filter isToggleSidebar es))).
Proof.
  intros es U.
  destruct (sidebarCollapsed_run es (mount initial) (mkState false false)
              (consistent_mount initial eq_refl consistent_initial) eq_refl U)
    as (st' & A' & S').
  rewrite A'. simpl. now rewrite S'.
Qed.

Lemma collapsed_is_parity_of_sidebar_toggles_witness :
  option_map sidebarCollapsed
    (appState (run (mount initial)
                   [ToggleSidebar; ToggleMobileMenu; Click TargetNull;
                    ToggleSidebar; Click (TargetElement ["App"]); ToggleSidebar]))
  = Some true.
Proof.
  apply (collapsed_is_parity_of_sidebar_toggles
           [ToggleSidebar; ToggleMobileMenu; Click TargetNull;
            ToggleSidebar; Click (TargetElement ["App"]); ToggleSidebar]).
  reflexivity.
Defined.

Lemma uncaught_setIsMobileMenuOpen (f : bool -> bool) (w : World) :
  uncaught (setIsMobileMenuOpen f w) = uncaught w.
Proof.
  unfold setIsMobileMenuOpen. destruct (app w) as [inst|]; [|reflexivity].
  now destruct (Bool.eqb _ _).
Qed.

Lemma uncaught_step (w : World) (e : Event) :
  consistent w -> targetsElement e = true -> uncaught (step w e) = uncaught w.
Proof.
  intros H T. destruct e as [| | | |t]; simpl.
  - destruct (app w); [reflexivity|].
    unfold mount, closeOnMountEffect. now rewrite uncaught_setIsMobileMenuOpen.
  - unfold unmount. now destruct (app w).
  - unfold toggleSidebar, setSidebarCollapsed. now destruct (app w).
  - apply uncaught_setIsMobileMenuOpen.
  - destruct t as [| |chain]; try discriminate T.
    destruct (app w) as [inst|] eqn:E.
    + rewrite (dispatchDocumentClick_consistent _ _ inst H E).
      unfold handleClickOutside.
      destruct (isMobileMenuOpen (state inst)); [|reflexivity].
      destruct (closest "side-menu" chain); [reflexivity|].
      apply uncaught_setIsMobileMenuOpen.
    + unfold consistent in H. rewrite E in H.
      unfold dispatchDocumentClick. rewrite H. simpl. now rewrite Nat.add_0_r.
Qed.

(** X4. In a history in which every click is targeted at an element
    (attached or detached, inside or outside the panel), the listener never
    throws: no error is ever raised, however the mounts, unmounts and
    toggles are interleaved. *)
Theorem element_clicks_raise_no_error :
  forall es : list Event,
    forallb targetsElement es = true ->
    uncaught (run initial es) = 0.
Proof.
  intros es. unfold run.
  assert (G : forall w, consistent w -> forallb targetsElement es = true ->
                        uncaught (fold_left step es w) = uncaught w).
  { induction es as [|e es IH]; intros w H T; simpl in *; [reflexivity|].
    apply andb_prop in T as [Te T].
    rewrite (IH (step w e) (consistent_step w e H) T).
    now apply uncaught_step. }
  intros T. now rewrite (G initial consistent_initial T).
Qed.

Lemma element_clicks_raise_no_error_witness :
  uncaught (run initial [Mount; ToggleMobileMenu; Click (TargetElement ["App"]);
                         ToggleMobileMenu; Click (TargetElement []); Unmount;
                         Click (TargetElement ["side-menu"])])
  = 0.
Proof.
  apply (element_clicks_raise_no_error
           [Mount; ToggleMobileMenu; Click (TargetElement ["App"]);
            ToggleMobileMenu; Click (TargetElement []); Unmount;
            Click (TargetElement ["side-menu"])]).
  reflexivity.
Defined.

(** *** Clicks the running page can receive *)






(** X5. The listener effect depends on [isMobileMenuOpen] alone. On every
    page reached from the first render with [App] mounted: the registered
    closure has captured the current value of the flag (it is never stale);
    [toggleSidebar] re-renders without registering anything (same listener,
    no new closure); [toggleMobileMenu] replaces the listener by one new
    closure that has captured the flipped value. *)
Theorem listener_follows_menu_flag_only :
  forall (es : list Event) (inst : Instance),
    app (run initial es) = Some inst ->
    let w := run initial es in
    capturedOpen (registered inst) = isMobileMenuOpen (state inst)
    /\ listeners (step w ToggleSidebar) = listeners w
    /\ nextId (step w ToggleSidebar) = nextId w
    /\ listeners (step w ToggleMobileMenu)
       = [mkListener (nextId w) (negb (isMobileMenuOpen (state inst)))]
    /\ nextId (step w ToggleMobileMenu) = Datatypes.S (nextId w).
Proof.
  intros es inst E w. subst w.
  pose proof (consistent_run es) as H. unfold consistent in H.
  rewrite E in H. destruct H as [L C].
  split; [exact C|].
  simpl. unfold toggleSidebar, setSidebarCollapsed, toggleMobileMenu,
         setIsMobileMenuOpen.
  rewrite E. simpl.
  split; [reflexivity|]. split; [reflexivity|].
  destruct (isMobileMenuOpen (state inst)); simpl; rewrite L; simpl;
    rewrite sameClosure_refl; split; reflexivity.
Qed.

Lemma listener_follows_menu_flag_only_witness :
  listeners (step (run initial [Mount; ToggleSidebar]) ToggleMobileMenu)
  = [mkListener 1 true]
  /\ listeners (step (run initial [Mount; ToggleMobileMenu]) ToggleSidebar)
     = [mkListener 1 true].
Proof.
  split.
  - apply (listener_follows_menu_flag_only
             [Mount; ToggleSidebar]
             (mkInstance (mkState true false) (mkListener 0 false)) eq_refl).
  - apply (listener_follows_menu_flag_only
             [Mount; ToggleMobileMenu]
             (mkInstance (mkState false true) (mkListener 1 true)) eq_refl).
Defined.

(* ===================================================================== *)
(** ** Further properties of the side menu                                *)
(* ===================================================================== *)

(** X6. A key press on a menu item calls [onClick], once, and prevents
    the key's default action exactly when the [key] React hands to the
    handler is "Enter" or " "; for every other value it does neither.
    React computes that [key] from the native event (a native "Spacebar",
    say, reaches the handler as " "); whatever that computation is, the
    item reacts to its result alone. *)
Theorem key_activates_iff_enter_or_space :
  forall (reactKey : NativeKey -> string) (p : ItemProps) (t : Part)
         (native : NativeKey) (calls : nat),
    let k := keyDownOnItem reactKey p Datatypes.S t native (freshDispatch calls) in
    (reactKey native = "Enter" \/ reactKey native = " " ->
     user k = Datatypes.S calls /\ defaultPrevented k = true)
    /\ (~ (reactKey native = "Enter" \/ reactKey native = " ") ->
        user k = calls /\ defaultPrevented k = false)
    /\ linkNavigations k = [].
Proof.
  intros reactKey p t native calls k. subst k.
  unfold keyDownOnItem, dispatchKeyDown, handleKeyDown.
  destruct (String.eqb_spec (reactKey native) "Enter") as [->|NE].
  - simpl. repeat split; tauto.
  - destruct (String.eqb_spec (reactKey native) " ") as [->|NS].
    + simpl. repeat split; tauto.
    + simpl. repeat split; tauto.
Qed.

(** With a normalisation that turns the legacy name "Spacebar" into " "
    and names an unidentified key by its code: a native "Spacebar" and an
    unidentified key of code 13 activate the item, "Tab" does not. *)
Lemma key_activates_iff_enter_or_space_witness :
  let reactKey := fun n : NativeKey =>
    if String.eqb (nativeKey n) "Spacebar" then " "
    else if String.eqb (nativeKey n) "Unidentified"
         then (if Nat.eqb (keyCode n) 13 then "Enter"
               else if Nat.eqb (keyCode n) 32 then " " else "Unidentified")
         else nativeKey n in
  let p := mkProps "/history" "i" "History" false false in
  user (keyDownOnItem reactKey p Datatypes.S OnDiv (mkNativeKey "Spacebar" 32)
                      (freshDispatch 0)) = 1
  /\ user (keyDownOnItem reactKey p Datatypes.S OnLink (mkNativeKey "Unidentified" 13)
                         (freshDispatch 0)) = 1
  /\ user (keyDownOnItem reactKey p Datatypes.S OnLink (mkNativeKey "Tab" 9)
                         (freshDispatch 0)) = 0.
Proof.
  intros reactKey p.
  destruct (key_activates_iff_enter_or_space
              reactKey p OnDiv (mkNativeKey "Spacebar" 32) 0) as (H1 & _ & _).
  destruct (key_activates_iff_enter_or_space
              reactKey p OnLink (mkNativeKey "Unidentified" 13) 0) as (H2 & _ & _).
  destruct (key_activates_iff_enter_or_space
              reactKey p OnLink (mkNativeKey "Tab" 9) 0) as (_ & H3 & _).
  split; [apply H1; now right|].
  split; [apply H2; now left|].
  apply H3. intros [H|H]; discriminate H.
Defined.

(** X7. For every item of [App]'s registry (its five paths are absolute
    and normalised, so the router resolves each to itself), collapsed or
    not: the anchor rendered for it links to the item's path; activating
    it, by a click anywhere in it or by Enter or Space, assigns that same
    path to [window.location.href], once; and rendered at a location with
    that path the item, and no other, is marked active. *)
Theorem item_link_and_activation_agree :
  forall (c : bool) (loc : Location) (k : nat) (it : NavigationItem),
    nth_error navigationItems k = Some it ->
    exists d,
      nth_error (renderedItems (SideMenuContent navigationItems c loc)) k = Some d
      /\ anchorHref d = Some (path it)
      /\ (forall (t : Part) (hrefs : list string),
            user (SideMenu.dispatchClick (itemProps loc c it) (itemOnClick it) t
                                         (freshDispatch hrefs))
            = (hrefs ++ [path it])%list)
      /\ (forall (t : Part) (key : string) (hrefs : list string),
            key = "Enter" \/ key = " " ->
            user (dispatchKeyDown (itemProps loc c it) (itemOnClick it) t key
                                  (freshDispatch hrefs))
            = (hrefs ++ [path it])%list)
      /\ (pathname loc = path it ->
          markedActive d = true
          /\ forall j d',
               nth_error (renderedItems (SideMenuContent navigationItems c loc)) j
               = Some d' ->
               markedActive d' = true -> j = k).
Proof.
  intros c loc k it K.
  exists (SideMenuItem (itemProps loc c it)).
  split; [|split; [|split; [|split]]].
  - rewrite renderedItems_SideMenuContent, nth_error_map, K. reflexivity.
  - reflexivity.
  - intros t hrefs. destruct t; reflexivity.
  - intros t key hrefs [-> | ->]; reflexivity.
  - intros E. split; [rewrite markedActive_item; now apply String.eqb_eq|].
    intros j d' Hj Ha.
    apply rendered_nth in Hj as (it' & Hj & ->).
    rewrite markedActive_item in Ha. apply String.eqb_eq in Ha.
    rewrite E in Ha.
    do 5 (destruct k as [|k]; [injection K as <-;
      do 5 (destruct j as [|j]; [injection Hj as <-;
                                 first [reflexivity | discriminate Ha]|]);
      destruct j; discriminate Hj|]).
    destruct k; discriminate K.
Qed.

Lemma item_link_and_activation_agree_witness :
  exists d,
    nth_error (renderedItems
                 (SideMenuContent navigationItems true (mkLocation "/history" "" ""))) 3
    = Some d
    /\ anchorHref d = Some "/history"
    /\ markedActive d = true.
Proof.
  destruct (item_link_and_activation_agree
              true (mkLocation "/history" "" "") 3
              (mkItem "/history" "📋" "History" History) eq_refl)
    as (d & Hd & Hh & _ & _ & Ha).
  exists d. split; [exact Hd|]. split; [exact Hh | now apply Ha].
Defined.

(* ===================================================================== *)
(** ** Further properties of the runner script                            *)
(* ===================================================================== *)
Import Outcome.

Lemma wp_bind {A B} (m : M A) (k : A -> M B) Q E (s : Sh) :
  wp m (fun a s' => wp (k a) Q E s') E s -> wp (bind m k) Q E s.
Proof. unfold wp, bind. now destruct (m s). Qed.

Lemma wp_weaken {A} (m : M A) (Q Q' : A -> Sh -> Prop) (E E' : nat -> Sh -> Prop)
      (s : Sh) :
  (forall a s', Q a s' -> Q' a s') -> (forall c s', E c s' -> E' c s') ->
  wp m Q E s -> wp m Q' E' s.
Proof. unfold wp. intros HQ HE. destruct (m s); auto. Qed.

Lemma printsOnly_echo (line : string) : printsOnly (echo line).
Proof. intros s. unfold echo. eauto. Qed.

Lemma printsOnly_seq (m k : M unit) :
  printsOnly m -> printsOnly k -> printsOnly (m ;; k).
Proof.
  intros Hm Hk s. destruct (Hm s) as (s1 & H1 & C1 & E1).
  destruct (Hk s1) as (s2 & H2 & C2 & E2).
  exists s2. rewrite (bind_Go _ _ _ _ _ H1). repeat split; congruence.
Qed.

Lemma printsOnly_usage (argv0 : string) : printsOnly (usage argv0).
Proof. unfold usage. repeat apply printsOnly_seq; apply printsOnly_echo. Qed.

Lemma printsOnly_print_success m : printsOnly (print_success m).
Proof. apply printsOnly_echo. Qed.

Lemma printsOnly_print_status m : printsOnly (print_status m).
Proof. apply printsOnly_echo. Qed.

Lemma printsOnly_print_warning m : printsOnly (print_warning m).
Proof. apply printsOnly_echo. Qed.

Lemma printsOnly_print_error m : printsOnly (print_error m).
Proof. apply printsOnly_echo. Qed.

(** X8. Asked for its help text the script runs no command at all and
    leaves [CONTAINER_ENGINE] as inherited: it never probes, builds, stops
    or starts anything, on any machine. *)
Theorem help_runs_no_command :
  forall (env : Env) (argv0 : string) (args : list string) (inherited : string),
    hd "" args = "--help" \/ hd "" args = "-h" ->
    exitStatus env argv0 args inherited = 0
    /\ clock (finalState env argv0 args inherited) = 0
    /\ CONTAINER_ENGINE (finalState env argv0 args inherited) = inherited.
Proof.
  intros env argv0 args inherited H. unfold exitStatus, finalState, script.
  assert (E : (String.eqb (hd "" args) "--help" || String.eqb (hd "" args) "-h") = true)
    by (destruct H as [-> | ->]; reflexivity).
  rewrite E.
  destruct (printsOnly_usage argv0 (start inherited)) as (s' & U & C & G).
  rewrite (bind_Go _ _ _ _ _ U). simpl. repeat split; assumption.
Qed.

Lemma help_runs_no_command_witness :
  let env := mkEnv (fun _ => true) (fun _ _ => 0) "/srv/app" in
  clock (finalState env "./container-run.sh" ["-h"; "--stop"] "podman") = 0
  /\ CONTAINER_ENGINE (finalState env "./container-run.sh" ["-h"; "--stop"] "podman")
     = "podman".
Proof.
  intros env.
  destruct (help_runs_no_command env "./container-run.sh" ["-h"; "--stop"] "podman")
    as (_ & H1 & H2); [right; reflexivity|].
  split; [exact H1 | exact H2].
Defined.

(** X9. What [detect_container_runtime] settles on, from any shell state
    and whatever [CONTAINER_ENGINE] held: docker whenever docker is
    installed and answers [info]; podman only when docker does not and
    podman does (podman is then probed by the next command); otherwise the
    script exits with status 1. It never goes on with any other engine. *)
Theorem detection_prefers_docker :
  forall (env : Env) (s : Sh),
    let n := if command_v env "docker" then Datatypes.S (clock s) else clock s in
    match detect_container_runtime env s with
    | Go _ s' =>
        (usableAt env "docker" (clock s) = true /\ CONTAINER_ENGINE s' = "docker")
        \/ (usableAt env "docker" (clock s) = false
            /\ usableAt env "podman" n = true
            /\ CONTAINER_ENGINE s' = "podman")
    | Exit c _ =>
        c = 1
        /\ usableAt env "docker" (clock s) = false
        /\ usableAt env "podman" n = false
    end.
Proof.
  intros env s n. subst n.
  unfold detect_container_runtime, found_and_running, usableAt, bind, external, ret,
    setEngine, print_success, print_error, echo, exit.
  destruct (command_v env "docker"); simpl.
  - destruct (Nat.eqb (exec env ["docker"; "info"] (clock s)) 0); simpl; [now left|].
    destruct (command_v env "podman"); simpl; [|now repeat split].
    destruct (Nat.eqb (exec env ["podman"; "info"] (Datatypes.S (clock s))) 0);
      simpl; [right|]; now repeat split.
  - destruct (command_v env "podman"); simpl; [|now repeat split].
    destruct (Nat.eqb (exec env ["podman"; "info"] (clock s)) 0);
      simpl; [right|]; now repeat split.
Qed.

(** The detection from any state in which no command has run yet. *)
Lemma detect_at_clock0 (env : Env) (s : Sh) :
  clock s = 0 ->
  if detects env
  then exists s', detect_container_runtime env s = Go tt s'
                  /\ CONTAINER_ENGINE s' = detectedEngine env
                  /\ clock s' = probes env
  else exists s', detect_container_runtime env s = Exit 1 s'.
Proof.
  intros C. destruct s as [ce cl out]. simpl in C. subst cl.
  unfold detects, dockerFound, podmanFound, detectedEngine, probes, dockerFound.
  unfold detect_container_runtime, found_and_running, usableAt, bind, external, ret,
    setEngine, print_success, print_error, echo, exit.
  simpl.
  destruct (command_v env "docker"); simpl.
  - destruct (Nat.eqb (exec env ["docker"; "info"] 0) 0); simpl; [eauto|].
    destruct (command_v env "podman"); simpl; [|eauto].
    destruct (Nat.eqb (exec env ["podman"; "info"] 1) 0); simpl; eauto.
  - destruct (command_v env "podman"); simpl; [|eauto].
    destruct (Nat.eqb (exec env ["podman"; "info"] 0) 0); simpl; eauto.
Qed.

(** [check_container_runtime] probes the engine it detected once more. *)
Lemma check_at_clock0 (env : Env) (s : Sh) :
  clock s = 0 -> detects env = true ->
  if Nat.eqb (exec env [detectedEngine env; "info"] (probes env)) 0
  then exists s', check_container_runtime env s = Go tt s'
                  /\ CONTAINER_ENGINE s' = detectedEngine env
                  /\ clock s' = Datatypes.S (probes env)
  else exists s', check_container_runtime env s = Exit 1 s'.
Proof.
  intros C Dt. pose proof (detect_at_clock0 env s C) as D. rewrite Dt in D.
  destruct D as (s1 & D & De & Dc).
  unfold check_container_runtime. rewrite (bind_Go _ _ _ _ _ D).
  unfold bind, engine, external, print_error, print_success, echo, exit.
  rewrite De, Dc.
  destruct (Nat.eqb (exec env [detectedEngine env; "info"] (probes env)) 0);
    simpl; eauto.
Qed.

Lemma detectedEngine_supported (env : Env) :
  (String.eqb (detectedEngine env) "podman"
   || String.eqb (detectedEngine env) "docker") = true.
Proof. unfold detectedEngine. now destruct (dockerFound env). Qed.

(** X10. [--stop] and [--engine] exit with status 0 exactly when the
    detection finds an engine, and with status 1 otherwise: the statuses of
    the [stop] and [rm] commands (no such container, say) never change the
    outcome. *)
Theorem stop_and_engine_exit_by_detection :
  forall (env : Env) (argv0 : string) (args : list string) (inherited : string),
    hd "" args = "--stop" \/ hd "" args = "--engine" ->
    exitStatus env argv0 args inherited = if detects env then 0 else 1.
Proof.
  intros env argv0 args inherited H. unfold exitStatus, script.
  pose proof (detect_at_clock0 env (start inherited) eq_refl) as D.
  destruct H as [-> | ->]; simpl;
    (destruct (detects env);
     [ destruct D as (s' & D & _); rewrite (bind_Go _ _ _ _ _ D); reflexivity
     | destruct D as (s' & D); now rewrite (bind_Exit _ _ _ _ _ D) ]).
Qed.

(** Docker installed and answering, no container to stop ([stop] and [rm]
    fail): [--stop] still exits 0. *)
Lemma stop_and_engine_exit_by_detection_witness :
  let env := mkEnv (fun e => String.eqb e "docker")
                   (fun argv _ => if String.eqb (nth 1 argv "") "info" then 0 else 1)
                   "/srv/app" in
  exitStatus env "./container-run.sh" ["--stop"] "" = 0.
Proof.
  intros env.
  apply (stop_and_engine_exit_by_detection env "./container-run.sh" ["--stop"] "").
  left; reflexivity.
Defined.

(** X11. [--logs] hands on the status of the [logs] command: once an
    engine is detected, the script's exit status is the status that
    [<engine> logs -f oc-mirror-web-app] returned, zero or not. *)
Theorem logs_exit_status_is_that_of_logs :
  forall (env : Env) (argv0 : string) (args : list string) (inherited : string),
    hd "" args = "--logs" ->
    detects env = true ->
    exitStatus env argv0 args inherited
    = exec env [detectedEngine env; "logs"; "-f"; "oc-mirror-web-app"] (probes env).
Proof.
  intros env argv0 args inherited H Dt. unfold exitStatus, script. rewrite H. simpl.
  pose proof (detect_at_clock0 env (start inherited) eq_refl) as D. rewrite Dt in D.
  destruct D as (s' & D & De & Dc).
  rewrite (bind_Go _ _ _ _ _ D).
  unfold bind, engine, must, external, ret, exit, bind. rewrite De, Dc.
  destruct (exec env _ (probes env)) as [|c]; reflexivity.
Qed.

Lemma logs_exit_status_is_that_of_logs_witness :
  let env := mkEnv (fun e => String.eqb e "podman")
                   (fun argv _ => if String.eqb (nth 1 argv "") "logs" then 125 else 0)
                   "/srv/app" in
  exitStatus env "./container-run.sh" ["--logs"] "" = 125.
Proof.
  intros env.
  apply (logs_exit_status_is_that_of_logs env "./container-run.sh" ["--logs"] "");
    reflexivity.
Defined.

(** X12. [--build-only], with an engine detected and answering the second
    probe: the exit status is 0 when the build succeeds and 1 when it
    fails; the build's own status is not handed on. *)
Theorem build_only_exit_status :
  forall (env : Env) (argv0 : string) (args : list string) (inherited : string),
    hd "" args = "--build-only" ->
    detects env = true ->
    exec env [detectedEngine env; "info"] (probes env) = 0 ->
    exitStatus env argv0 args inherited
    = if Nat.eqb (exec env [detectedEngine env; "build"; "-t"; "oc-mirror-web-app"; "."]
                       (Datatypes.S (probes env))) 0
      then 0 else 1.
Proof.
  intros env argv0 args inherited H Dt I. unfold exitStatus, script. rewrite H. simpl.
  pose proof (check_at_clock0 env (start inherited) eq_refl Dt) as K.
  rewrite I in K. simpl in K. destruct K as (s' & K & Ke & Kc).
  rewrite (bind_Go _ _ _ _ _ K).
  unfold build_image, bind, engine, print_status, print_success, print_error,
    echo, external, exit.
  rewrite Ke, Kc. simpl. rewrite detectedEngine_supported.
  now destruct (Nat.eqb _ 0).
Qed.

Lemma build_only_exit_status_witness :
  let env := mkEnv (fun e => String.eqb e "docker")
                   (fun argv _ => if String.eqb (nth 1 argv "") "build" then 2 else 0)
                   "/srv/app" in
  exitStatus env "./container-run.sh" ["--build-only"] "" = 1.
Proof.
  intros env.
  apply (build_only_exit_status env "./container-run.sh" ["--build-only"] "");
    reflexivity.
Defined.

(** The plain run prints its banner and then checks the engine. *)
Lemma main_after_banner (env : Env) (s : Sh) :
  exists s1,
    clock s1 = clock s
    /\ CONTAINER_ENGINE s1 = CONTAINER_ENGINE s
    /\ main env s
       = (check_container_runtime env ;;
          create_directories env ;;
          fix_permissions env ;;
          build_image env ;;
          run_container env ;;
          show_status env) s1.
Proof.
  unfold main.
  repeat match goal with
         | |- context [bind (echo ?l) ?k ?s0] =>
             let s' := fresh "s" in
             let H := fresh "H" in
             let C := fresh "C" in
             let E := fresh "E" in
             destruct (printsOnly_echo l s0) as (s' & H & C & E);
             rewrite (bind_Go (echo l) k s0 s' tt H); clear H
         end.
  eexists. split; [|split; [|reflexivity]]; congruence.
Qed.

(** X13. An engine that answers the detection's probe but not the probe
    [check_container_runtime] makes right after it: the plain run,
    [--build-only] and [--run-only] exit with status 1, before any
    directory is made or any image built. *)
Theorem failed_second_probe_exits_1 :
  forall (env : Env) (argv0 : string) (args : list string) (inherited : string),
    hd "" args <> "--help" -> hd "" args <> "-h" ->
    hd "" args <> "--stop" -> hd "" args <> "--logs" -> hd "" args <> "--engine" ->
    detects env = true ->
    exec env [detectedEngine env; "info"] (probes env) <> 0 ->
    exitStatus env argv0 args inherited = 1
    /\ clock (finalState env argv0 args inherited) = Datatypes.S (probes env).
Proof.
  intros env argv0 args inherited H1 H2 H3 H4 H5 Dt I.
  unfold exitStatus, finalState, script.
  apply String.eqb_neq in H1, H2, H3, H4, H5. rewrite H1, H2, H3, H4, H5. simpl.
  apply Nat.eqb_neq in I.
  assert (K : forall s, clock s = 0 ->
                        exists s', check_container_runtime env s = Exit 1 s'
                                   /\ clock s' = Datatypes.S (probes env)).
  { intros s C. pose proof (detect_at_clock0 env s C) as D. rewrite Dt in D.
    destruct D as (s1 & D & De & Dc).
    unfold check_container_runtime. rewrite (bind_Go _ _ _ _ _ D).
    unfold bind, engine, external, print_error, print_success, echo, exit.
    rewrite De, Dc, I. simpl. eauto. }
  destruct (String.eqb (hd "" args) "--build-only");
    [|destruct (String.eqb (hd "" args) "--run-only")].
  - destruct (K (start inherited) eq_refl) as (s' & Hk & C).
    rewrite (bind_Exit _ _ _ _ _ Hk). split; [reflexivity | exact C].
  - destruct (K (start inherited) eq_refl) as (s' & Hk & C).
    rewrite (bind_Exit _ _ _ _ _ Hk). split; [reflexivity | exact C].
  - destruct (main_after_banner env (start inherited)) as (s1 & C1 & _ & ->).
    destruct (K s1 C1) as (s' & Hk & C).
    rewrite (bind_Exit _ _ _ _ _ Hk). split; [reflexivity | exact C].
Qed.

Lemma failed_second_probe_exits_1_witness :
  let env := mkEnv (fun e => String.eqb e "docker")
                   (fun _ n => if Nat.eqb n 0 then 0 else 1)
                   "/srv/app" in
  exitStatus env "./container-run.sh" [] "" = 1
  /\ clock (finalState env "./container-run.sh" [] "") = 2.
Proof.
  intros env.
  apply (failed_second_probe_exits_1 env "./container-run.sh" [] "");
    try discriminate; reflexivity.
Defined.

(** *** A machine on which only [chown] may fail *)
Section Healthy.
Variable env : Env.
Hypothesis healthy : onlyChownMayFail env.

Lemma endsWell_seq (m k : M unit) (s : Sh) :
  endsWell m s -> (forall s', engineChosen s' -> endsWell k s') ->
  endsWell (m ;; k) s.
Proof.
  intros Hm Hk. unfold endsWell. apply wp_bind.
  eapply wp_weaken; [| |exact Hm]; simpl; auto.
Qed.

Lemma endsWell_echo (line : string) (s : Sh) :
  engineChosen s -> endsWell (echo line) s.
Proof. intros H. exact H. Qed.

Lemma endsWell_exit0 (s : Sh) : endsWell (exit 0) s.
Proof. reflexivity. Qed.

Lemma endsWell_ret (s : Sh) : engineChosen s -> endsWell (ret tt) s.
Proof. intros H. exact H. Qed.

Lemma endsWell_must (argv : list string) (s : Sh) :
  hd "" argv <> "chown" -> engineChosen s -> endsWell (must env argv) s.
Proof.
  intros N H. unfold endsWell, wp, must, bind, external.
  rewrite (healthy argv (clock s) N). simpl. exact H.
Qed.

Lemma endsWell_engine (f : string -> M unit) (s : Sh) :
  engineChosen s ->
  (forall e, e = "docker" \/ e = "podman" -> endsWell (f e) s) ->
  endsWell (e <- engine ;; f e) s.
Proof.
  intros H Hf. unfold endsWell, wp, bind, engine. now apply Hf.
Qed.

Lemma endsWell_external (argv : list string) (f : nat -> M unit) (s : Sh) :
  engineChosen s ->
  (forall st s', engineChosen s' -> (hd "" argv <> "chown" -> st = 0) ->
                 endsWell (f st) s') ->
  endsWell (st <- external env argv ;; f st) s.
Proof.
  intros H Hf. unfold endsWell, wp, bind, external.
  apply Hf; [exact H | intros N; now apply healthy].
Qed.

Lemma engine_not_chown (e : string) (rest : list string) :
  e = "docker" \/ e = "podman" -> hd "" (e :: rest) <> "chown".
Proof. intros [-> | ->]; discriminate. Qed.

Lemma endsWell_banner (s : Sh) : engineChosen s -> endsWell banner s.
Proof.
  intros H. unfold banner.
  apply endsWell_seq; [exact H | intros s1 H1].
  apply endsWell_seq; [exact H1 | intros s2 H2]. exact H2.
Qed.

Ltac ends_step :=
  match goal with
  | |- endsWell (exit 0) _ => apply endsWell_exit0
  | |- endsWell banner _ => now apply endsWell_banner
  | |- endsWell (ret tt) _ => now apply endsWell_ret
  | |- endsWell (echo _) _ => now apply endsWell_echo
  | |- endsWell (print_status _) _ => now apply endsWell_echo
  | |- endsWell (print_success _) _ => now apply endsWell_echo
  | |- endsWell (print_warning _) _ => now apply endsWell_echo
  | |- endsWell (must env _) _ =>
      apply endsWell_must;
      [first [discriminate | now apply engine_not_chown] | assumption]
  | |- endsWell (bind engine _) _ =>
      apply endsWell_engine; [assumption | intros ? ?]
  | |- endsWell (bind (external env _) _) _ =>
      apply endsWell_external; [assumption | intros ? ? ? ?]
  | |- endsWell (bind _ (fun _ => _)) _ =>
      apply endsWell_seq; [| intros ? ?]
  end.

Lemma endsWell_create_directories (s : Sh) :
  engineChosen s -> endsWell (create_directories env) s.
Proof.
  intros H. unfold create_directories.
  repeat ends_step.
  destruct (Nat.eqb st 0); repeat ends_step.
Qed.

Lemma endsWell_fix_permissions (s : Sh) :
  engineChosen s -> endsWell (fix_permissions env) s.
Proof.
  intros H. unfold fix_permissions.
  repeat ends_step.
  destruct (Nat.eqb st 0); repeat ends_step.
  destruct (Nat.eqb st0 0); repeat ends_step.
Qed.

Lemma endsWell_build_image (s : Sh) :
  engineChosen s -> endsWell (build_image env) s.
Proof.
  intros H. unfold build_image.
  repeat ends_step.
  assert (S : (String.eqb e "podman" || String.eqb e "docker") = true)
    by (destruct H0 as [-> | ->]; reflexivity).
  rewrite S. ends_step.
  rewrite (H3 (engine_not_chown e _ H0)). simpl. ends_step.
Qed.

Lemma endsWell_run_container (s : Sh) :
  engineChosen s -> endsWell (run_container env) s.
Proof.
  intros H. unfold run_container.
  repeat ends_step.
  destruct (Nat.eqb st 0); repeat ends_step.
Qed.

Lemma endsWell_show_status (s : Sh) :
  engineChosen s -> endsWell (show_status env) s.
Proof.
  intros H. unfold show_status. repeat ends_step.
Qed.

(** With an engine installed the detection and the check go on with it. *)
Lemma endsWell_detect (s : Sh) :
  command_v env "docker" = true \/ command_v env "podman" = true ->
  endsWell (detect_container_runtime env) s.
Proof.
  intros I.
  unfold endsWell, wp, detect_container_runtime, found_and_running, bind, external,
    ret, setEngine, print_success, echo, engineChosen.
  destruct (command_v env "docker") eqn:D.
  - rewrite (healthy ["docker"; "info"] (clock s)) by discriminate. simpl. now left.
  - destruct I as [I | I]; [discriminate|]. rewrite I.
    rewrite (healthy ["podman"; "info"] (clock s)) by discriminate. simpl. now right.
Qed.

Lemma endsWell_check (s : Sh) :
  command_v env "docker" = true \/ command_v env "podman" = true ->
  endsWell (check_container_runtime env) s.
Proof.
  intros I. unfold check_container_runtime.
  apply endsWell_seq; [now apply endsWell_detect | intros s1 H1].
  repeat ends_step.
  rewrite (H2 (engine_not_chown e _ H)). simpl. ends_step.
Qed.

(** X14. On a machine where docker or podman is installed and every
    command succeeds except, possibly, [chown] (the caller not being
    root): the script exits with status 0 whatever its arguments. A failed
    change of ownership alone never fails the run. *)
Theorem only_chown_failing_still_exits_0 :
  forall (argv0 : string) (args : list string) (inherited : string),
    command_v env "docker" = true \/ command_v env "podman" = true ->
    exitStatus env argv0 args inherited = 0.
Proof.
  intros argv0 args inherited I.
  assert (W : wp (script env argv0 args) (fun _ _ => True) (fun c _ => c = 0)
                 (start inherited)).
  { apply (wp_weaken _ (fun _ s' => engineChosen s') _ (fun c _ => c = 0));
      [auto | auto |].
    change (endsWell (script env argv0 args) (start inherited)).
    unfold script.
    destruct (String.eqb (hd "" args) "--help" || String.eqb (hd "" args) "-h").
    { unfold endsWell. apply wp_bind.
      destruct (printsOnly_usage argv0 (start inherited)) as (s' & U & _).
      unfold wp at 1. rewrite U. reflexivity. }
    repeat match goal with
           | |- endsWell (if ?b then _ else _) _ => destruct b
           end.
    - apply endsWell_seq; [now apply endsWell_check | intros s1 H1].
      apply endsWell_seq; [now apply endsWell_build_image | intros s2 H2].
      repeat ends_step.
    - apply endsWell_seq; [now apply endsWell_check | intros s1 H1].
      apply endsWell_seq; [now apply endsWell_run_container | intros s2 H2].
      apply endsWell_seq; [now apply endsWell_show_status | intros s3 H3].
      ends_step.
    - apply endsWell_seq; [now apply endsWell_detect | intros s1 H1].
      unfold or_true. repeat ends_step.
    - apply endsWell_seq; [now apply endsWell_detect | intros s1 H1].
      repeat ends_step.
    - apply endsWell_seq; [now apply endsWell_detect | intros s1 H1].
      repeat ends_step.
    - destruct (main_after_banner env (start inherited)) as (s1 & _ & _ & M).
      unfold endsWell, wp. rewrite M.
      change (endsWell (check_container_runtime env ;;
                        create_directories env ;;
                        fix_permissions env ;;
                        build_image env ;;
                        run_container env ;;
                        show_status env) s1).
      apply endsWell_seq; [now apply endsWell_check | intros s2 H2].
      apply endsWell_seq; [now apply endsWell_create_directories | intros s3 H3].
      apply endsWell_seq; [now apply endsWell_fix_permissions | intros s4 H4].
      apply endsWell_seq; [now apply endsWell_build_image | intros s5 H5].
      apply endsWell_seq; [now apply endsWell_run_container | intros s6 H6].
      now apply endsWell_show_status. }
  unfold exitStatus. unfold wp in W.
  now destruct (script env argv0 args (start inherited)).
Qed.

End Healthy.

(** Podman only, every [chown] failing with status 1: the plain run and
    [--run-only] exit 0. *)
Lemma only_chown_failing_still_exits_0_witness :
  let env := mkEnv (fun e => String.eqb e "podman")
                   (fun argv _ => if String.eqb (hd "" argv) "chown" then 1 else 0)
                   "/srv/app" in
  exitStatus env "./container-run.sh" [] "" = 0
  /\ exitStatus env "./container-run.sh" ["--run-only"] "" = 0.
Proof.
  intros env.
  assert (H : onlyChownMayFail env).
  { intros argv n N. unfold env; simpl.
    apply String.eqb_neq in N. now rewrite N. }
  split.
  - apply (only_chown_failing_still_exits_0 env H "./container-run.sh" [] "").
    right; reflexivity.
  - apply (only_chown_failing_still_exits_0 env H "./container-run.sh" ["--run-only"] "").
    right; reflexivity.
Defined.
